(** * sourcecontrol: the commit / branch / merge model of [DVC]

    A shallow embedding of [src/sourcecontrol.py].  Every operation of the
    class [DVC] loads [metadata.json], works on the loaded document and
    either saves it back or returns early; an operation is therefore a
    function from the persisted document to an [outcome]: what was
    printed, what was returned or raised, and the document on disk
    afterwards. *)

From Stdlib Require Import Ascii.
From stdpp Require Import base strings list gmap sets.

(** ** Python dictionaries

    A Python [dict] keeps its keys in insertion order: assigning to a key
    that is present replaces the value where it stands, assigning to a new
    key appends it.  [merge] iterates over such a dictionary to build the
    list it returns, so the order is kept: a dictionary is the list of its
    items, keys pairwise distinct ([dict_ok]). *)

Module PyDict.

Definition dict (V : Type) : Type := list (string * V).

Definition dkeys {V} (d : dict V) : list string := d.*1.

Definition dict_ok {V} (d : dict V) : Prop := NoDup (dkeys d).

(** [d.get(k)] *)
Fixpoint dget {V} (k : string) (d : dict V) : option V :=
  match d with
  | [] => None
  | (k', v) :: d' => if decide (k = k') then Some v else dget k d'
  end.

(** [d[k] = v] *)
Fixpoint dset {V} (k : string) (v : V) (d : dict V) : dict V :=
  match d with
  | [] => [(k, v)]
  | (k', v') :: d' =>
      if decide (k = k') then (k', v) :: d' else (k', v') :: dset k v d'
  end.

(** [for k, v in items: d[k] = v], which is also [{**d, **items}]. *)
Definition dupdate {V} (d : dict V) (items : list (string * V)) : dict V :=
  fold_left (λ acc kv, dset kv.1 kv.2 acc) items d.

End PyDict.

Import PyDict.

(** ** The persisted document *)

(** A commit record, one element of a branch's list. *)
Record Commit : Type := mkCommit {
  commit_id : string;
  commit_message : string;
  commit_timestamp : string;
  commit_files : dict string;
  commit_parent : option string
}.

(** [metadata.json].  The key ["staging"] is optional: [commit] pops it. *)
Record Metadata : Type := mkMetadata {
  md_branches : dict (list Commit);
  md_current_branch : string;
  md_head : option string;
  md_staging : option (dict string)
}.

Global Instance Commit_eq_dec : EqDecision Commit.
Proof. solve_decision. Defined.

Global Instance Metadata_eq_dec : EqDecision Metadata.
Proof. solve_decision. Defined.

(** ** Outcomes *)

(** The errors of the operating system that reading a file or copying
    it can end in: [OSError] and its subclasses.  File paths are taken
    to be paths a file can have; [open] rejects a path holding a NUL
    character with a [ValueError] of its own, and such paths are left
    out. *)
Inductive os_error : Type :=
| FileNotFoundError (path : string)
| IsADirectoryError (path : string)
| PermissionError (path : string)
| SameFileError (src dst : string)
| OtherOSError (description : string).

Inductive exn : Type :=
| ValueError (msg : string)
| KeyError (key : string)
| OSError (e : os_error).

Inductive pyval : Type :=
| PyNone
| PyList (l : list string).

Inductive completion : Type :=
| Return (v : pyval)
| Raise (e : exn).

Record outcome : Type := mkOutcome {
  printed : list string;
  result : completion;
  saved : Metadata
}.

(** What [diff] computes before it formats its report.  The report joins
    each set in Python's set iteration order, which the source does not
    fix; the three sets are kept as sets. *)
Record DiffSets : Type := mkDiffSets {
  added : gset string;
  removed : gset string;
  modified : gset string
}.

Inductive diff_result : Type :=
| DiffNotFound
| DiffReport (r : DiffSets).

(** ** What the host provides

    [hashlib.sha1(..).hexdigest()], [os.path.abspath],
    [os.path.relpath] and [str.strip] are library functions; the
    operations are stated over any implementation of them.  The two calls of
    [datetime.now().isoformat()] that [commit] and [merge] make are
    arguments [now_id] (the first call, used in the id) and [now_ts] (the
    second call, stored as the timestamp). *)
Class Host : Type := mkHost {
  sha1_hexdigest : string → string;
  os_path_abspath : string → string;
  os_path_relpath : string → string → string;
  str_strip : string → string
}.

(** ** POSIX paths

    Path components, containment of a location in a directory, and the
    relative path as [posixpath.relpath] computes it from two absolute
    normalised paths. *)
Module Posix.

Fixpoint split_go (cur : string) (s : string) : list string :=
  match s with
  | EmptyString => [String.rev cur]
  | String a s' =>
      if decide (a = "/"%char) then String.rev cur :: split_go "" s'
      else split_go (String a cur) s'
  end.

(** [s.split('/')] *)
Definition split (s : string) : list string := split_go "" s.

(** [[x for x in s.split('/') if x]] *)
Definition components (s : string) : list string :=
  filter (λ x, x ≠ "") (split s).

(** ['/'.join(l)] *)
Fixpoint join (l : list string) : string :=
  match l with
  | [] => ""
  | [x] => x
  | x :: l' => x +:+ "/" +:+ join l'
  end.

Fixpoint common_prefix_length (l1 l2 : list string) : nat :=
  match l1, l2 with
  | x :: l1', y :: l2' =>
      if decide (x = y) then S (common_prefix_length l1' l2') else 0
  | _, _ => 0
  end.

Definition relpath (path start : string) : string :=
  let start_list := components start in
  let path_list := components path in
  let i := common_prefix_length start_list path_list in
  let rel_list := replicate (length start_list - i) ".." ++ drop i path_list in
  match rel_list with
  | [] => "."
  | _ => join rel_list
  end.

(** The location [path] is the directory [root] or lies below it. *)
Definition inside (root path : string) : Prop :=
  components root `prefix_of` components path.

(** The absolute normalised path with the given components:
    [/c1/c2/.../cn]. *)
Fixpoint path_of (l : list string) : string :=
  match l with
  | [] => ""
  | x :: l' => "/" +:+ x +:+ path_of l'
  end.

End Posix.

(** ** The operations of [DVC] *)

Module DVC.

(** [init]: the document written when none exists. *)
Definition initial_metadata : Metadata :=
  {| md_branches := [("main", [])];
     md_current_branch := "main";
     md_head := None;
     md_staging := None |}.

Definition init (existing : option Metadata) : Metadata :=
  match existing with
  | Some st => st
  | None => initial_metadata
  end.

Section operations.
Context `{Host}.

(** [get_ignored_files]: [ignore_file] is the list of lines of
    [.dvc/.dvcignore], or [None] when the file does not exist. *)
Definition get_ignored_files (ignore_file : option (list string)) : gset string :=
  match ignore_file with
  | Some lines =>
      list_to_set (str_strip <$> filter (λ line, str_strip line ≠ "") lines)
  | None => ∅
  end.

(** [hash_file]: [content] is what [open(path, 'rb')] and [f.read()]
    give, the bytes of the file or the error they raise. *)
Definition hash_file (content : os_error + string) : exn + string :=
  match content with
  | inr bytes => inr (sha1_hexdigest bytes)
  | inl e => inl (OSError e)
  end.

(** [add].  [stored] is what [ensure_dir] and [shutil.copy2] do when
    they put the file into [objects/<digest>/]: [None] when the copy is
    made, [Some e] when one of them raises [e] (a [SameFileError] when
    the file is the stored copy itself).  They run after the staging map
    is updated in memory and before it is saved. *)
Definition add (repo_path : string) (ignore_file : option (list string))
    (content : os_error + string) (stored : option os_error)
    (file_path : string) (st : Metadata) : outcome :=
  let staged_files := default [] (md_staging st) in
  let abs_path := os_path_abspath file_path in
  if negb (String.prefix repo_path abs_path) then
    mkOutcome [] (Raise (ValueError "File must be within the repository.")) st
  else
    let rel_path := os_path_relpath abs_path repo_path in
    let ignored := get_ignored_files ignore_file in
    if decide (rel_path ∈ ignored) then
      mkOutcome ["File '" +:+ rel_path +:+ "' is ignored."] (Return PyNone) st
    else
      match hash_file content with
      | inl e => mkOutcome [] (Raise e) st
      | inr file_hash =>
          let staged_files := dset rel_path file_hash staged_files in
          match stored with
          | Some e => mkOutcome [] (Raise (OSError e)) st
          | None =>
              mkOutcome ["File '" +:+ file_path +:+ "' staged."] (Return PyNone)
                {| md_branches := md_branches st;
                   md_current_branch := md_current_branch st;
                   md_head := md_head st;
                   md_staging := Some staged_files |}
          end
      end.

(** [commit] *)
Definition commit (now_id now_ts : string) (message : string)
    (st : Metadata) : outcome :=
  let branch := md_current_branch st in
  let head := md_head st in
  let staged_files := default [] (md_staging st) in
  match staged_files with
  | [] => mkOutcome ["No changes to commit."] (Return PyNone) st
  | _ :: _ =>
      let commit_id := sha1_hexdigest (message +:+ now_id) in
      let commit :=
        {| commit_id := commit_id;
           commit_message := message;
           commit_timestamp := now_ts;
           commit_files := staged_files;
           commit_parent := head |} in
      match dget branch (md_branches st) with
      | None => mkOutcome [] (Raise (KeyError branch)) st
      | Some commits =>
          mkOutcome ["Commit '" +:+ commit_id +:+ "' created."] (Return PyNone)
            {| md_branches := dset branch (commits ++ [commit]) (md_branches st);
               md_current_branch := md_current_branch st;
               md_head := Some commit_id;
               md_staging := None |}
      end
  end.

(** [branch] *)
Definition branch (branch_name : string) (st : Metadata) : outcome :=
  match dget branch_name (md_branches st) with
  | Some _ => mkOutcome ["Branch already exists."] (Return PyNone) st
  | None =>
      let current_branch := md_current_branch st in
      match dget current_branch (md_branches st) with
      | None => mkOutcome [] (Raise (KeyError current_branch)) st
      | Some commits =>
          mkOutcome ["Branch '" +:+ branch_name +:+ "' created."] (Return PyNone)
            {| md_branches := dset branch_name commits (md_branches st);
               md_current_branch := md_current_branch st;
               md_head := md_head st;
               md_staging := md_staging st |}
      end
  end.

(** [checkout] *)
Definition checkout (branch_name : string) (st : Metadata) : outcome :=
  match dget branch_name (md_branches st) with
  | None => mkOutcome ["Branch does not exist."] (Return PyNone) st
  | Some commits =>
      mkOutcome ["Switched to branch '" +:+ branch_name +:+ "'."] (Return PyNone)
        {| md_branches := md_branches st;
           md_current_branch := branch_name;
           md_head := commit_id <$> last commits;
           md_staging := md_staging st |}
  end.

(** [{c["id"]: c for c in commits}] *)
Definition commits_by_id (commits : list Commit) : dict Commit :=
  fold_left (λ acc c, dset (commit_id c) c acc) commits [].

(** [diff] *)
Definition diff (commit1_id commit2_id : string) (st : Metadata) : diff_result :=
  let branch := md_current_branch st in
  let commits := commits_by_id (default [] (dget branch (md_branches st))) in
  match dget commit1_id commits, dget commit2_id commits with
  | Some c1, Some c2 =>
      let files1 := commit_files c1 in
      let files2 := commit_files c2 in
      let set1 : gset string := list_to_set (dkeys files1) in
      let set2 : gset string := list_to_set (dkeys files2) in
      DiffReport
        {| added := set2 ∖ set1;
           removed := set1 ∖ set2;
           modified := filter (λ f, dget f files1 ≠ dget f files2) (set1 ∩ set2) |}
  | _, _ => DiffNotFound
  end.

(** [{k: v for commit in commits for k, v in commit["files"].items()}] *)
Definition flatten (commits : list Commit) : dict string :=
  fold_left (λ acc commit, dupdate acc (commit_files commit)) commits [].

(** [[f for f in current_files if f in target_files
      and current_files[f] != target_files[f]]] *)
Definition conflicts_of (current_files target_files : dict string) : list string :=
  filter (λ f, is_Some (dget f target_files)
               ∧ dget f current_files ≠ dget f target_files)
         (dkeys current_files).

(** [merge] *)
Definition merge (now_id now_ts : string) (target_branch : string)
    (st : Metadata) : outcome :=
  let current_branch := md_current_branch st in
  match dget target_branch (md_branches st) with
  | None =>
      mkOutcome ["Branch '" +:+ target_branch +:+ "' does not exist."]
        (Return (PyList [])) st
  | Some target_commits =>
      let current_commits := default [] (dget current_branch (md_branches st)) in
      let current_files := flatten current_commits in
      let target_files := flatten target_commits in
      let conflicts := conflicts_of current_files target_files in
      match conflicts with
      | _ :: _ =>
          mkOutcome
            ("Merge conflicts detected:"
               :: ((λ conflict, "Conflict in file: " +:+ conflict) <$> conflicts))
            (Return (PyList conflicts)) st
      | [] =>
          let merged_files := dupdate current_files target_files in
          let merge_commit :=
            {| commit_id := "merge-" +:+ now_id;
               commit_message :=
                 "Merge branch '" +:+ target_branch +:+ "' into '"
                   +:+ current_branch +:+ "'";
               commit_timestamp := now_ts;
               commit_files := merged_files;
               commit_parent := md_head st |} in
          match dget current_branch (md_branches st) with
          | None => mkOutcome [] (Raise (KeyError current_branch)) st
          | Some commits =>
              mkOutcome
                ["Branch '" +:+ target_branch +:+ "' successfully merged into '"
                   +:+ current_branch +:+ "'."]
                (Return PyNone)
                {| md_branches :=
                     dset current_branch (commits ++ [merge_commit]) (md_branches st);
                   md_current_branch := md_current_branch st;
                   md_head := Some (commit_id merge_commit);
                   md_staging := md_staging st |}
          end
      end
  end.

End operations.

Definition newline : string := String "010"%char "".

(** One entry of [log].  [commit.get("parent", "None")] is the value
    stored under ["parent"], and the f-string writes a stored [None] as
    the text [None]. *)
Definition log_entry (commit : Commit) : string :=
  "Commit: " +:+ commit_id commit +:+ newline
    +:+ "Message: " +:+ commit_message commit +:+ newline
    +:+ "Time: " +:+ commit_timestamp commit +:+ newline
    +:+ "Parent: " +:+ default "None" (commit_parent commit) +:+ newline.

(** [log]: what it prints, one string per call of [print]. *)
Definition log (st : Metadata) : list string :=
  let branch := md_current_branch st in
  let commits := default [] (dget branch (md_branches st)) in
  log_entry <$> reverse commits.

End DVC.

(** ** Sequences of operations

    The mutating commands of a session, each with the inputs it reads
    from outside the document (clock reads, file contents, the outcome
    of the copy into the object store). *)

Inductive op : Type :=
| OpAdd (ignore_file : option (list string)) (content : os_error + string)
        (stored : option os_error) (file_path : string)
| OpCommit (now_id now_ts message : string)
| OpBranch (branch_name : string)
| OpCheckout (branch_name : string)
| OpMerge (now_id now_ts target_branch : string).

Section sessions.
Context `{Host} (repo_path : string).

Definition step (o : op) (st : Metadata) : outcome :=
  match o with
  | OpAdd ignore_file content stored file_path =>
      DVC.add repo_path ignore_file content stored file_path st
  | OpCommit now_id now_ts message => DVC.commit now_id now_ts message st
  | OpBranch branch_name => DVC.branch branch_name st
  | OpCheckout branch_name => DVC.checkout branch_name st
  | OpMerge now_id now_ts target_branch =>
      DVC.merge now_id now_ts target_branch st
  end.

(** The document after a session. *)
Fixpoint run (ops : list op) (st : Metadata) : Metadata :=
  match ops with
  | [] => st
  | o :: ops' => run ops' (saved (step o st))
  end.

(** The commits by which [o] lengthens the sequence of the branch that
    is current when [o] starts. *)
Definition new_commits (o : op) (st : Metadata) : list Commit :=
  let b := md_current_branch st in
  drop (length (default [] (dget b (md_branches st))))
       (default [] (dget b (md_branches (saved (step o st))))).

(** The commits a session appends while [b] is the current branch. *)
Fixpoint appended_to (b : string) (ops : list op) (st : Metadata) : list Commit :=
  match ops with
  | [] => []
  | o :: ops' =>
      (if decide (md_current_branch st = b) then new_commits o st else [])
        ++ appended_to b ops' (saved (step o st))
  end.

End sessions.

(** ** Notions used in the statements *)

(** The digest [h] is what the last commit of [commits] that mentions
    [p] records for it. *)
Definition last_write (commits : list Commit) (p h : string) : Prop :=
  ∃ i c, commits !! i = Some c
         ∧ dget p (commit_files c) = Some h
         ∧ ∀ j c', i < j → commits !! j = Some c' → dget p (commit_files c') = None.

(** [p] is recorded by both sequences, with different digests. *)
Definition conflicting (current_commits target_commits : list Commit) (p : string) : Prop :=
  ∃ h1 h2, last_write current_commits p h1
           ∧ last_write target_commits p h2
           ∧ h1 ≠ h2.

Definition files_ok (commits : list Commit) : Prop :=
  Forall (λ c, dict_ok (commit_files c)) commits.

(** The sequence of the current branch, as [merge], [diff] and [log] read
    it: [metadata["branches"].get(current_branch, [])]. *)
Definition current_commits (st : Metadata) : list Commit :=
  default [] (dget (md_current_branch st) (md_branches st)).

(** The current branch is one of the branches. *)
Definition current_branch_exists (st : Metadata) : Prop :=
  is_Some (dget (md_current_branch st) (md_branches st)).

(** The command with outcome [o], run on [st], appended the commit [c]
    to the sequence of the current branch. *)
Definition created (st : Metadata) (o : outcome) (c : Commit) : Prop :=
  ∃ commits,
    dget (md_current_branch st) (md_branches st) = Some commits
    ∧ dget (md_current_branch st) (md_branches (saved o)) = Some (commits ++ [c]).

(** The staging map, as [add] and [commit] read it:
    [metadata.get("staging", {})]. *)
Definition staging_map (st : Metadata) : dict string :=
  default [] (md_staging st).

(** ** Worked examples: a host and a few documents *)

Module Examples.

(** The whitespace of ASCII text: tab to carriage return, the four
    separators 28 to 31, and the space. *)
Definition ascii_is_space (a : ascii) : bool :=
  let n := nat_of_ascii a in
  (Nat.leb 9 n && Nat.leb n 13) || (Nat.leb 28 n && Nat.leb n 32).

Fixpoint ascii_lstrip (s : string) : string :=
  match s with
  | EmptyString => EmptyString
  | String a s' => if ascii_is_space a then ascii_lstrip s' else s
  end.

(** What [str.strip()] returns on a text made of ASCII characters only,
    as every text of the examples is. *)
Definition ascii_strip (s : string) : string :=
  String.rev (ascii_lstrip (String.rev (ascii_lstrip s))).

(** Paths in the examples are absolute and normalised, which
    [os.path.abspath] returns as they are; the digest is a readable
    stand-in that tags its input. *)
Definition demo_host : Host :=
  {| sha1_hexdigest := λ s, "sha1:" +:+ s;
     os_path_abspath := λ p, p;
     os_path_relpath := Posix.relpath;
     str_strip := ascii_strip |}.

Definition newline : string := String "010"%char "".

Definition commit_of (i m t : string) (fs : dict string) (p : option string) : Commit :=
  {| commit_id := i; commit_message := m; commit_timestamp := t;
     commit_files := fs; commit_parent := p |}.

(** [main] and [feature] disagree on [x.txt] and agree on [y.txt]. *)
Definition diverged : Metadata :=
  {| md_branches :=
       [("main", [commit_of "c1" "one" "t1" [("y.txt", "Y")] None;
                  commit_of "c3" "three" "t3" [("x.txt", "B")] (Some "c1")]);
        ("feature", [commit_of "c1" "one" "t1" [("y.txt", "Y")] None;
                     commit_of "c2" "two" "t2" [("x.txt", "A")] (Some "c1")])];
     md_current_branch := "main";
     md_head := Some "c3";
     md_staging := None |}.

(** Three empty branches. *)
Definition three_branches : Metadata :=
  {| md_branches := [("main", []); ("a", []); ("b", [])];
     md_current_branch := "main";
     md_head := None;
     md_staging := None |}.

(** [f.txt] was staged before it was listed in [.dvcignore]. *)
Definition staged_f : Metadata :=
  {| md_branches := [("main", [])];
     md_current_branch := "main";
     md_head := None;
     md_staging := Some [("f.txt", "sha1:v1")] |}.

Definition ignore_f : option (list string) := Some ["f.txt" +:+ newline].

(** The scenario of the specification: branch [feature] from [main],
    commit [x.txt] with content [A] on [feature] and with content [B] on
    [main]. *)
Definition scenario : list op :=
  [OpBranch "feature";
   OpCheckout "feature";
   OpAdd None (inr "A") None "/repo/x.txt";
   OpCommit "t1" "t1'" "on feature";
   OpCheckout "main";
   OpAdd None (inr "B") None "/repo/x.txt";
   OpCommit "t2" "t2'" "on main"].

Definition on_feature : Commit :=
  commit_of "sha1:on featuret1" "on feature" "t1'" [("x.txt", "sha1:A")] None.

Definition on_main : Commit :=
  commit_of "sha1:on maint2" "on main" "t2'" [("x.txt", "sha1:B")] None.

End Examples.

(** ** Notions for the history as a whole *)

(** The head is the id of the last commit of the current branch, or
    [None] when that branch has no commit. *)
Definition head_consistent (st : Metadata) : Prop :=
  md_head st = commit_id <$> last (current_commits st).

(** Each commit names its predecessor in the sequence as its parent;
    the first one names [prev]. *)
Fixpoint parent_chain (prev : option string) (commits : list Commit) : Prop :=
  match commits with
  | [] => True
  | c :: commits' =>
      commit_parent c = prev ∧ parent_chain (Some (commit_id c)) commits'
  end.

Definition chained (st : Metadata) : Prop :=
  ∀ b commits, dget b (md_branches st) = Some commits → parent_chain None commits.

(** The list [merge] returned, if it returned one. *)
Definition reported_conflicts (o : outcome) : list string :=
  match result o with
  | Return (PyList l) => l
  | _ => []
  end.

(** Further documents for the worked examples. *)
Module Samples.

(** [main] with one commit and a staged file, [feature] empty. *)
Definition working : Metadata :=
  {| md_branches :=
       [("main", [Examples.commit_of "c1" "one" "t1" [("y.txt", "Y")] None]);
        ("feature", [])];
     md_current_branch := "main";
     md_head := Some "c1";
     md_staging := Some [("a.txt", "sha1:v1")] |}.

(** [main] and [feature] touch different paths. *)
Definition disjoint_work : Metadata :=
  {| md_branches :=
       [("main", [Examples.commit_of "c1" "one" "t1" [("y.txt", "Y")] None]);
        ("feature", [Examples.commit_of "c2" "two" "t2" [("x.txt", "A")] None])];
     md_current_branch := "main";
     md_head := Some "c1";
     md_staging := None |}.

(** The same branches as [Examples.diverged], seen from [feature]. *)
Definition diverged_on_feature : Metadata :=
  {| md_branches := md_branches Examples.diverged;
     md_current_branch := "feature";
     md_head := Some "c2";
     md_staging := None |}.

(** Two merges into [main] whose ids are formed from the same clock
    value, the second one bringing in [y.txt] from [b]. *)
Definition twin_merges : list op :=
  [OpBranch "a";
   OpBranch "b";
   OpMerge "T" "T" "a";
   OpCheckout "b";
   OpAdd None (inr "Y") None "/repo/y.txt";
   OpCommit "t1" "t1'" "on b";
   OpCheckout "main";
   OpMerge "T" "T" "b"].

Definition first_merge : Commit :=
  Examples.commit_of "merge-T" "Merge branch 'a' into 'main'" "T" [] None.

Definition second_merge : Commit :=
  Examples.commit_of "merge-T" "Merge branch 'b' into 'main'" "T"
    [("y.txt", "sha1:Y")] (Some "merge-T").

End Samples.

(** * Facts *)

(** ** Dictionaries *)

Section dict_facts.
Context {V : Type}.
Implicit Types (d items : dict V) (k : string) (v : V).

Lemma dget_dset_eq k v d : dget k (dset k v d) = Some v.
Proof.
  induction d as [|[k' v'] d IH]; simpl.
  - by rewrite decide_True.
  - destruct (decide (k = k')) as [->|Hne]; simpl.
    + by rewrite decide_True.
    + by rewrite decide_False.
Qed.

Lemma dget_dset_ne k k' v d : k ≠ k' → dget k' (dset k v d) = dget k' d.
Proof.
  intros Hne. induction d as [|[k0 v0] d IH]; simpl.
  - by rewrite decide_False.
  - destruct (decide (k = k0)) as [->|Hk]; simpl.
    + by rewrite !decide_False.
    + by rewrite IH.
Qed.

Lemma dget_dset k k' v d :
  dget k' (dset k v d) = if decide (k = k') then Some v else dget k' d.
Proof.
  case_decide as Hk; [subst; apply dget_dset_eq | by apply dget_dset_ne].
Qed.

Lemma elem_of_dkeys k d : k ∈ dkeys d ↔ is_Some (dget k d).
Proof.
  unfold dkeys. induction d as [|[k' v'] d IH]; csimpl.
  - split; [by intros ?%elem_of_nil | by intros [? ?]].
  - rewrite elem_of_cons, IH. destruct (decide (k = k')) as [->|Hne].
    + split; [by eexists | by left].
    + split; [by intros [?|?] | by right].
Qed.

Lemma not_elem_of_dkeys k d : k ∉ dkeys d ↔ dget k d = None.
Proof. by rewrite elem_of_dkeys, eq_None_not_Some. Qed.

Lemma dkeys_dset_present k v d : is_Some (dget k d) → dkeys (dset k v d) = dkeys d.
Proof.
  unfold dkeys. induction d as [|[k' v'] d IH]; csimpl.
  - by intros [? ?].
  - case_decide; [done|]. intros Hd; csimpl. by rewrite IH.
Qed.

Lemma dset_absent k v d : dget k d = None → dset k v d = d ++ [(k, v)].
Proof.
  induction d as [|[k' v'] d IH]; simpl; [done|].
  case_decide; [done|]. intros Hd. by rewrite IH.
Qed.

Lemma dict_ok_nil : dict_ok (V:=V) [].
Proof. apply NoDup_nil_2. Qed.

Lemma dict_ok_dset k v d : dict_ok d → dict_ok (dset k v d).
Proof.
  unfold dict_ok. intros Hd. destruct (dget k d) as [v0|] eqn:Hk.
  - by rewrite dkeys_dset_present.
  - rewrite dset_absent by done. unfold dkeys. rewrite fmap_app; simpl.
    apply NoDup_app; split_and!; [done| |apply NoDup_singleton].
    intros k' Hin ->%list_elem_of_singleton.
    apply not_elem_of_dkeys in Hk. by apply Hk.
Qed.

Lemma dict_ok_dupdate d items : dict_ok d → dict_ok (dupdate d items).
Proof.
  unfold dupdate. revert d.
  induction items as [|[k v] items IH]; intros d Hd; simpl; [done|].
  by apply IH, dict_ok_dset.
Qed.

(** [{**d, **items}]: the entries of [items] win. *)
Lemma dget_dupdate k d items :
  dict_ok items →
  dget k (dupdate d items) = from_option Some (dget k d) (dget k items).
Proof.
  unfold dupdate, dict_ok, dkeys. revert d.
  induction items as [|[k' v'] items IH]; intros d Hnd; simpl; [done|].
  apply NoDup_cons in Hnd as [Hnotin Hnd].
  rewrite IH by done. case_decide as Hk.
  - subst k'. apply (not_elem_of_dkeys k items) in Hnotin.
    rewrite Hnotin; simpl. apply dget_dset_eq.
  - destruct (dget k items); simpl; [done|]. by apply dget_dset_ne.
Qed.

End dict_facts.

(** ** Flattening a commit sequence *)

Lemma flatten_nil : DVC.flatten [] = [].
Proof. reflexivity. Qed.

Lemma flatten_snoc (commits : list Commit) (c : Commit) :
  DVC.flatten (commits ++ [c]) = dupdate (DVC.flatten commits) (commit_files c).
Proof. unfold DVC.flatten. by rewrite fold_left_app. Qed.

Lemma dict_ok_flatten (commits : list Commit) : dict_ok (DVC.flatten commits).
Proof.
  induction commits as [|c commits IH] using rev_ind.
  - apply dict_ok_nil.
  - rewrite flatten_snoc. by apply dict_ok_dupdate.
Qed.

Lemma files_ok_snoc (commits : list Commit) (c : Commit) :
  files_ok (commits ++ [c]) ↔ files_ok commits ∧ dict_ok (commit_files c).
Proof. unfold files_ok. rewrite Forall_app, Forall_singleton. done. Qed.

Lemma last_write_snoc_here (commits : list Commit) (c : Commit) (p h : string) :
  dget p (commit_files c) = Some h → last_write (commits ++ [c]) p h.
Proof.
  intros Hc. exists (length commits), c. split_and!; [|done|].
  - by rewrite lookup_app_r, Nat.sub_diag.
  - intros j c' Hlt Hj. apply lookup_lt_Some in Hj.
    rewrite length_app in Hj; simpl in Hj. lia.
Qed.

Lemma last_write_snoc_before (commits : list Commit) (c : Commit) (p h : string) :
  dget p (commit_files c) = None →
  last_write (commits ++ [c]) p h ↔ last_write commits p h.
Proof.
  intros Hc. split.
  - intros (i & c0 & Hi & Hp & Hlater).
    destruct (decide (i < length commits)) as [Hlt|Hge].
    + exists i, c0. rewrite lookup_app_l in Hi by done. split_and!; [done..|].
      intros j c' Hij Hj. apply (Hlater j c' Hij).
      rewrite lookup_app_l; [done|]. by eapply lookup_lt_Some.
    + rewrite lookup_app_r in Hi by lia.
      apply list_lookup_singleton_Some in Hi as [_ <-]. congruence.
  - intros (i & c0 & Hi & Hp & Hlater). exists i, c0.
    pose proof (lookup_lt_Some _ _ _ Hi) as Hlt.
    split_and!; [by rewrite lookup_app_l|done|].
    intros j c' Hij Hj. destruct (decide (j < length commits)) as [Hj'|Hj'].
    + rewrite lookup_app_l in Hj by done. by eapply Hlater.
    + rewrite lookup_app_r in Hj by lia.
      apply list_lookup_singleton_Some in Hj as [_ <-]. done.
Qed.

Lemma last_write_snoc_inv (commits : list Commit) (c : Commit) (p h h' : string) :
  dget p (commit_files c) = Some h → last_write (commits ++ [c]) p h' → h' = h.
Proof.
  intros Hc (i & c0 & Hi & Hp & Hlater).
  destruct (decide (i < length commits)) as [Hlt|Hge].
  - assert (dget p (commit_files c) = None); [|congruence].
    apply (Hlater (length commits) c Hlt).
    by rewrite lookup_app_r, Nat.sub_diag.
  - rewrite lookup_app_r in Hi by lia.
    apply list_lookup_singleton_Some in Hi as [_ <-]. congruence.
Qed.

(** Folding the whole sequence in order, later commits overriding
    earlier ones: the flattened map holds, for each path, what the last
    commit mentioning it records. *)
Lemma flatten_last_write (commits : list Commit) (p h : string) :
  files_ok commits →
  dget p (DVC.flatten commits) = Some h ↔ last_write commits p h.
Proof.
  induction commits as [|c commits IH] using rev_ind; intros Hok.
  - split; [done|]. by intros (i & c & Hi & _).
  - apply files_ok_snoc in Hok as [Hok Hc].
    rewrite flatten_snoc, dget_dupdate by done.
    destruct (dget p (commit_files c)) as [h0|] eqn:Hp; simpl.
    + split.
      * intros [= <-]. by apply last_write_snoc_here.
      * intros Hl. f_equal. symmetry. by eapply last_write_snoc_inv.
    + by rewrite last_write_snoc_before, IH.
Qed.

(** ** The conflict list *)

Lemma elem_of_conflicts_of (current_files target_files : dict string) (p : string) :
  p ∈ DVC.conflicts_of current_files target_files ↔
  ∃ h1 h2, dget p current_files = Some h1 ∧ dget p target_files = Some h2 ∧ h1 ≠ h2.
Proof.
  unfold DVC.conflicts_of. rewrite list_elem_of_filter, elem_of_dkeys. split.
  - intros [[[h2 Ht] Hne] [h1 Hc]]. exists h1, h2. split_and!; [done..|].
    congruence.
  - intros (h1 & h2 & Hc & Ht & Hne). split_and!; [by eexists|congruence|by eexists].
Qed.

Lemma NoDup_conflicts_of (current_files target_files : dict string) :
  dict_ok current_files → NoDup (DVC.conflicts_of current_files target_files).
Proof. intros Hok. by apply NoDup_filter. Qed.

(** [merge] on an existing target, by cases on the conflict list. *)
Lemma merge_existing (now_id now_ts target : string) (st : Metadata)
    (target_commits : list Commit) :
  dget target (md_branches st) = Some target_commits →
  let conflicts :=
    DVC.conflicts_of (DVC.flatten (current_commits st)) (DVC.flatten target_commits) in
  (conflicts ≠ [] →
     result (DVC.merge now_id now_ts target st) = Return (PyList conflicts)
     ∧ saved (DVC.merge now_id now_ts target st) = st)
  ∧ (conflicts = [] →
       result (DVC.merge now_id now_ts target st) = Return PyNone
       ∨ ∃ e, result (DVC.merge now_id now_ts target st) = Raise e).
Proof.
  intros Ht conflicts. unfold DVC.merge. rewrite Ht.
  fold (current_commits st). fold conflicts.
  destruct conflicts as [|p l]; split; try done.
  intros _. destruct (dget (md_current_branch st) (md_branches st)); simpl; eauto.
Qed.

(** * The merge engine *)

(** Closes [files_ok] and [dict_ok] goals on explicit documents. *)
Ltac solve_ok :=
  unfold files_ok, dict_ok; apply (bool_decide_unpack _); vm_compute; exact I.

(** C1.  When the target branch exists, [merge] flattens the sequence of
    the current branch and that of the target by folding all their
    commits in order, a later commit overriding an earlier one on the
    same path: each flattened map gives a path the digest recorded by the
    last commit that mentions it.  The conflicts it reports are exactly
    the paths that both flattened maps hold with different digests: the
    list is returned when it is not empty, and no list is returned when
    it is empty. *)
Theorem merge_flattens_and_reports_conflicts
    (now_id now_ts target : string) (st : Metadata) (target_commits : list Commit) :
  dget target (md_branches st) = Some target_commits →
  files_ok (current_commits st) →
  files_ok target_commits →
  (∀ p h, dget p (DVC.flatten (current_commits st)) = Some h
          ↔ last_write (current_commits st) p h)
  ∧ (∀ p h, dget p (DVC.flatten target_commits) = Some h
            ↔ last_write target_commits p h)
  ∧ ∃ conflicts,
      NoDup conflicts
      ∧ (∀ p, p ∈ conflicts ↔ conflicting (current_commits st) target_commits p)
      ∧ (conflicts ≠ [] →
           result (DVC.merge now_id now_ts target st) = Return (PyList conflicts))
      ∧ (conflicts = [] →
           ∀ l, result (DVC.merge now_id now_ts target st) ≠ Return (PyList l)).
Proof.
  intros Ht Hcur Htgt.
  split; [intros p h; by apply flatten_last_write|].
  split; [intros p h; by apply flatten_last_write|].
  destruct (merge_existing now_id now_ts target st target_commits Ht) as [Hsome Hnone].
  eexists. split_and!.
  - apply NoDup_conflicts_of, dict_ok_flatten.
  - intros p. rewrite elem_of_conflicts_of. unfold conflicting.
    split; intros (h1 & h2 & H1 & H2 & Hne); exists h1, h2.
    + by rewrite <- !flatten_last_write.
    + by rewrite !flatten_last_write.
  - intros Hne. by apply Hsome.
  - intros Hnil l Hl. destruct (Hnone Hnil) as [Hr|[e Hr]]; congruence.
Qed.

Lemma merge_flattens_and_reports_conflicts_witness :
  ∃ conflicts,
    NoDup conflicts
    ∧ (∀ p, p ∈ conflicts ↔
            conflicting (current_commits Examples.diverged)
              (default [] (dget "feature" (md_branches Examples.diverged))) p)
    ∧ (conflicts ≠ [] →
         result (DVC.merge "t1" "t2" "feature" Examples.diverged)
         = Return (PyList conflicts))
    ∧ (conflicts = [] →
         ∀ l, result (DVC.merge "t1" "t2" "feature" Examples.diverged)
              ≠ Return (PyList l)).
Proof.
  refine (proj2 (proj2 (merge_flattens_and_reports_conflicts
                          "t1" "t2" "feature" Examples.diverged _ eq_refl _ _)));
    solve_ok.
Defined.

(** C2.  When [merge] detects at least one conflict it returns the full
    list of conflicting paths, each once, and the document on disk
    (branches, current branch, head, staging) is the one it loaded. *)
Theorem merge_conflict_aborts
    (now_id now_ts target : string) (st : Metadata) (target_commits : list Commit) :
  dget target (md_branches st) = Some target_commits →
  DVC.conflicts_of (DVC.flatten (current_commits st)) (DVC.flatten target_commits) ≠ [] →
  ∃ conflicts,
    result (DVC.merge now_id now_ts target st) = Return (PyList conflicts)
    ∧ NoDup conflicts
    ∧ (∀ p, p ∈ conflicts ↔
            ∃ h1 h2, dget p (DVC.flatten (current_commits st)) = Some h1
                     ∧ dget p (DVC.flatten target_commits) = Some h2
                     ∧ h1 ≠ h2)
    ∧ saved (DVC.merge now_id now_ts target st) = st.
Proof.
  intros Ht Hne.
  destruct (merge_existing now_id now_ts target st target_commits Ht) as [Hsome _].
  destruct (Hsome Hne) as [Hres Hsaved].
  eexists. split_and!; [exact Hres| |apply elem_of_conflicts_of|exact Hsaved].
  apply NoDup_conflicts_of, dict_ok_flatten.
Qed.

Lemma merge_conflict_aborts_witness :
  ∃ conflicts,
    result (DVC.merge "t1" "t2" "feature" Examples.diverged) = Return (PyList conflicts)
    ∧ NoDup conflicts
    ∧ (∀ p, p ∈ conflicts ↔
            ∃ h1 h2,
              dget p (DVC.flatten (current_commits Examples.diverged)) = Some h1
              ∧ dget p (DVC.flatten
                          (default [] (dget "feature" (md_branches Examples.diverged))))
                = Some h2
              ∧ h1 ≠ h2)
    ∧ saved (DVC.merge "t1" "t2" "feature" Examples.diverged) = Examples.diverged.
Proof.
  apply (merge_conflict_aborts "t1" "t2" "feature" Examples.diverged _ eq_refl).
  vm_compute. discriminate.
Defined.

(** The scenario of the specification: one shared path with different
    content gives exactly that path and leaves the document alone. *)
Example merge_diverged :
  DVC.merge "t1" "t2" "feature" Examples.diverged
  = mkOutcome ["Merge conflicts detected:"; "Conflict in file: x.txt"]
      (Return (PyList ["x.txt"])) Examples.diverged.
Proof. reflexivity. Qed.

(** C10.  [merge] on a name that is not a branch returns the empty list
    and leaves the document alone; and the empty list is returned in no
    other case, since a conflict list that is returned is not empty and a
    successful merge returns [None]. *)
Theorem merge_unknown_branch_returns_empty
    (now_id now_ts target : string) (st : Metadata) :
  (dget target (md_branches st) = None →
     result (DVC.merge now_id now_ts target st) = Return (PyList [])
     ∧ saved (DVC.merge now_id now_ts target st) = st)
  ∧ (result (DVC.merge now_id now_ts target st) = Return (PyList []) →
       dget target (md_branches st) = None).
Proof.
  split.
  - intros Ht. unfold DVC.merge. by rewrite Ht.
  - destruct (dget target (md_branches st)) as [target_commits|] eqn:Ht; [|done].
    destruct (merge_existing now_id now_ts target st target_commits Ht)
      as [Hsome Hnone].
    destruct (decide (DVC.conflicts_of (DVC.flatten (current_commits st))
                        (DVC.flatten target_commits) = [])) as [Hnil|Hne].
    + destruct (Hnone Hnil) as [Hr|[e Hr]]; rewrite Hr; discriminate.
    + destruct (Hsome Hne) as [Hr _]. rewrite Hr. intros [= Heq]. done.
Qed.

(** * The commit log *)

Section commit_log.
Context `{Host}.

(** C4.  With a non-empty staging map (and the current branch among
    the branches, as in every document the commands produce),
    [commit] builds a commit whose files are the staging map and whose
    parent is the head it found, appends it to the sequence of the
    current branch and to no other, makes its id the head, removes the
    staging map, and saves that document. *)
Theorem commit_appends_staged_snapshot
    (now_id now_ts message : string) (st : Metadata) (commits : list Commit) :
  staging_map st ≠ [] →
  dget (md_current_branch st) (md_branches st) = Some commits →
  let c := {| commit_id := sha1_hexdigest (message +:+ now_id);
              commit_message := message;
              commit_timestamp := now_ts;
              commit_files := staging_map st;
              commit_parent := md_head st |} in
  let o := DVC.commit now_id now_ts message st in
  result o = Return PyNone
  ∧ dget (md_current_branch st) (md_branches (saved o)) = Some (commits ++ [c])
  ∧ (∀ b, b ≠ md_current_branch st →
          dget b (md_branches (saved o)) = dget b (md_branches st))
  ∧ md_current_branch (saved o) = md_current_branch st
  ∧ md_head (saved o) = Some (commit_id c)
  ∧ md_staging (saved o) = None.
Proof.
  intros Hstaged Hcur c o. subst o c. unfold DVC.commit, staging_map in *.
  destruct (default [] (md_staging st)) as [|kv files] eqn:Hs; [done|].
  rewrite Hcur; simpl. split_and!; try done.
  - apply dget_dset_eq.
  - intros b Hb. by apply dget_dset_ne.
Qed.

(** With nothing staged, [commit] changes nothing. *)
Lemma commit_nothing_staged (now_id now_ts message : string) (st : Metadata) :
  staging_map st = [] →
  DVC.commit now_id now_ts message st
  = mkOutcome ["No changes to commit."] (Return PyNone) st.
Proof. unfold DVC.commit, staging_map. by intros ->. Qed.

(** C8.  [checkout] of a name that is not a branch reports it and
    leaves the document alone; otherwise it saves the document with
    that name as the current branch and, as head, the id of the last
    commit of the branch's sequence, or [None] when the sequence is
    empty; branches and staging are kept. *)
Theorem checkout_moves_head (name : string) (st : Metadata) :
  (dget name (md_branches st) = None →
     DVC.checkout name st
     = mkOutcome ["Branch does not exist."] (Return PyNone) st)
  ∧ (∀ commits, dget name (md_branches st) = Some commits →
       let st' := saved (DVC.checkout name st) in
       result (DVC.checkout name st) = Return PyNone
       ∧ md_current_branch st' = name
       ∧ md_head st' = commit_id <$> last commits
       ∧ (commits = [] → md_head st' = None)
       ∧ (∀ earlier c, commits = earlier ++ [c] → md_head st' = Some (commit_id c))
       ∧ md_branches st' = md_branches st
       ∧ md_staging st' = md_staging st).
Proof.
  unfold DVC.checkout. split.
  - by intros ->.
  - intros commits ->; simpl. split_and!; try done.
    + by intros ->.
    + intros earlier c ->. by rewrite last_snoc.
Qed.

End commit_log.

Lemma commit_appends_staged_snapshot_witness :
  let st := {| md_branches := [("main", [])]; md_current_branch := "main";
               md_head := None; md_staging := Some [("a.txt", "sha1:v1")] |} in
  let o := DVC.commit (H:=Examples.demo_host) "t1" "t2" "c1" st in
  result o = Return PyNone
  ∧ dget "main" (md_branches (saved o))
    = Some [Examples.commit_of "sha1:c1t1" "c1" "t2" [("a.txt", "sha1:v1")] None]
  ∧ md_head (saved o) = Some "sha1:c1t1"
  ∧ md_staging (saved o) = None.
Proof.
  intros st o.
  destruct (commit_appends_staged_snapshot (H:=Examples.demo_host)
              "t1" "t2" "c1" st []) as (Hr & Hb & _ & _ & Hh & Hs).
  - vm_compute. discriminate.
  - reflexivity.
  - split_and!; [exact Hr|exact Hb|exact Hh|exact Hs].
Defined.

(** * Sessions: what a command does to the branches *)

Section session_facts.
Context `{Host} (repo_path : string).

(** A command leaves the branches alone, or lengthens the sequence of
    the current branch by one commit, or binds a fresh name. *)
Lemma step_branches_cases (o : op) (st : Metadata) :
  let st' := saved (step repo_path o st) in
  md_branches st' = md_branches st
  ∨ (∃ commits c,
        dget (md_current_branch st) (md_branches st) = Some commits
        ∧ md_branches st' = dset (md_current_branch st) (commits ++ [c]) (md_branches st))
  ∨ (∃ name commits,
        dget name (md_branches st) = None
        ∧ md_branches st' = dset name commits (md_branches st)).
Proof.
  destruct o as [ign content stored path|now_id now_ts message|name|name
                 |now_id now_ts target];
    simpl.
  - unfold DVC.add. repeat (case_match; simpl); auto.
  - unfold DVC.commit.
    destruct (default [] (md_staging st)); [by left|].
    destruct (dget (md_current_branch st) (md_branches st)) eqn:Hc; [|by left].
    right; left. eauto.
  - unfold DVC.branch.
    destruct (dget name (md_branches st)) eqn:Hn; [by left|].
    destruct (dget (md_current_branch st) (md_branches st)); [|by left].
    right; right. eauto.
  - unfold DVC.checkout. destruct (dget name (md_branches st)); by left.
  - unfold DVC.merge.
    destruct (dget target (md_branches st)); [|by left].
    destruct (DVC.conflicts_of _ _); [|by left].
    destruct (dget (md_current_branch st) (md_branches st)) eqn:Hc; [|by left].
    right; left. eauto.
Qed.

(** A branch other than the current one is not touched by a command. *)
Lemma step_other_branch (o : op) (st : Metadata) (b : string) :
  b ≠ md_current_branch st →
  is_Some (dget b (md_branches st)) →
  dget b (md_branches (saved (step repo_path o st))) = dget b (md_branches st).
Proof.
  intros Hb [cs Hcs].
  destruct (step_branches_cases o st)
    as [->|[(commits & c & _ & ->)|(name & commits & Hn & ->)]]; [done|..].
  - by apply dget_dset_ne.
  - apply dget_dset_ne. congruence.
Qed.

(** A command extends the sequence of a branch by the commits it
    appends, which is none unless the branch is the current one. *)
Lemma step_branch_sequence (o : op) (st : Metadata) (b : string)
    (cs : list Commit) :
  dget b (md_branches st) = Some cs →
  dget b (md_branches (saved (step repo_path o st)))
  = Some (cs ++ if decide (md_current_branch st = b)
                then new_commits repo_path o st else []).
Proof.
  intros Hcs. case_decide as Hb.
  - subst b. unfold new_commits. rewrite Hcs; simpl.
    destruct (step_branches_cases o st)
      as [->|[(commits & c & Hc & ->)|(name & commits & Hn & ->)]].
    + rewrite Hcs; simpl. by rewrite drop_all, app_nil_r.
    + rewrite dget_dset_eq; simpl. simplify_eq.
      by rewrite drop_app_length.
    + rewrite dget_dset_ne by congruence.
      rewrite Hcs; simpl. by rewrite drop_all, app_nil_r.
  - rewrite app_nil_r, <- Hcs. apply step_other_branch; [done|by eexists].
Qed.

(** Over a session, the sequence of a branch grows by exactly the
    commits appended while it was the current branch. *)
Lemma run_branch_sequence (ops : list op) (st : Metadata) (b : string)
    (cs : list Commit) :
  dget b (md_branches st) = Some cs →
  dget b (md_branches (run repo_path ops st))
  = Some (cs ++ appended_to repo_path b ops st).
Proof.
  revert st cs. induction ops as [|o ops IH]; intros st cs Hcs; simpl.
  - by rewrite app_nil_r.
  - rewrite app_assoc. apply IH. by apply step_branch_sequence.
Qed.

(** Every command keeps the current branch among the branches. *)
Lemma step_current_branch_exists (o : op) (st : Metadata) :
  current_branch_exists st → current_branch_exists (saved (step repo_path o st)).
Proof.
  unfold current_branch_exists. intros [cs Hcs].
  destruct o as [ign content stored path|now_id now_ts message|name|name
                 |now_id now_ts target];
    simpl.
  - unfold DVC.add. repeat (case_match; simpl); by eexists.
  - unfold DVC.commit. rewrite Hcs.
    destruct (default [] (md_staging st)); simpl; [by eexists|].
    rewrite dget_dset_eq. by eexists.
  - unfold DVC.branch. rewrite Hcs.
    destruct (dget name (md_branches st)) eqn:Hn; simpl; [by eexists|].
    rewrite dget_dset_ne by congruence. by eexists.
  - unfold DVC.checkout.
    destruct (dget name (md_branches st)) eqn:Hn; simpl; by eexists.
  - unfold DVC.merge. rewrite Hcs.
    destruct (dget target (md_branches st)); simpl; [|by eexists].
    destruct (DVC.conflicts_of _ _); simpl; [|by eexists].
    rewrite dget_dset_eq. by eexists.
Qed.

Lemma run_current_branch_exists (ops : list op) (st : Metadata) :
  current_branch_exists st → current_branch_exists (run repo_path ops st).
Proof.
  revert st. induction ops as [|o ops IH]; intros st Hst; simpl; [done|].
  by apply IH, step_current_branch_exists.
Qed.

(** In every document reached from a fresh repository the current
    branch is among the branches. *)
Lemma reachable_current_branch_exists (ops : list op) :
  current_branch_exists (run repo_path ops (DVC.init None)).
Proof. apply run_current_branch_exists. by eexists. Qed.

(** C9.  [branch] on a name that is already bound reports it and
    leaves the document alone.  On a fresh name, with the current
    branch among the branches, it binds the name to the commit
    sequence of the current branch and changes nothing else.  The new
    branch is a copy: in every later session a command never touches a
    branch other than the current one, so each of the two sequences is
    the copied one followed by exactly the commits appended while that
    branch was the current one. *)
Theorem branch_is_value_copy (name : string) (st : Metadata) :
  (is_Some (dget name (md_branches st)) →
     DVC.branch name st
     = mkOutcome ["Branch already exists."] (Return PyNone) st)
  ∧ (∀ commits,
       dget name (md_branches st) = None →
       dget (md_current_branch st) (md_branches st) = Some commits →
       let cur := md_current_branch st in
       let st1 := saved (DVC.branch name st) in
       result (DVC.branch name st) = Return PyNone
       ∧ name ≠ cur
       ∧ dget name (md_branches st1) = Some commits
       ∧ dget cur (md_branches st1) = Some commits
       ∧ (∀ b, b ≠ name → dget b (md_branches st1) = dget b (md_branches st))
       ∧ md_current_branch st1 = cur
       ∧ md_head st1 = md_head st
       ∧ md_staging st1 = md_staging st
       ∧ (∀ o s b, b ≠ md_current_branch s →
                   is_Some (dget b (md_branches s)) →
                   dget b (md_branches (saved (step repo_path o s)))
                   = dget b (md_branches s))
       ∧ ∀ ops,
           dget name (md_branches (run repo_path ops st1))
           = Some (commits ++ appended_to repo_path name ops st1)
           ∧ dget cur (md_branches (run repo_path ops st1))
             = Some (commits ++ appended_to repo_path cur ops st1)).
Proof.
  split.
  - intros [cs Hcs]. unfold DVC.branch. by rewrite Hcs.
  - intros commits Hname Hcur cur st1.
    assert (name ≠ cur) as Hne by (subst cur; congruence).
    assert (dget name (md_branches st1) = Some commits) as Hn1.
    { subst st1. unfold DVC.branch. rewrite Hname, Hcur; simpl.
      apply dget_dset_eq. }
    assert (∀ b, b ≠ name → dget b (md_branches st1) = dget b (md_branches st))
      as Hframe.
    { intros b Hb. subst st1. unfold DVC.branch. rewrite Hname, Hcur; simpl.
      by apply dget_dset_ne. }
    assert (dget cur (md_branches st1) = Some commits) as Hc1.
    { rewrite Hframe by done. exact Hcur. }
    split_and!; try done.
    + unfold DVC.branch. by rewrite Hname, Hcur.
    + subst st1. unfold DVC.branch. by rewrite Hname, Hcur.
    + subst st1. unfold DVC.branch. by rewrite Hname, Hcur.
    + subst st1. unfold DVC.branch. by rewrite Hname, Hcur.
    + intros o s b. apply step_other_branch.
    + intros ops. split; by apply run_branch_sequence.
Qed.

End session_facts.

(** * Commit ids *)

Lemma not_created_unchanged (st : Metadata) (o : outcome) (c : Commit) :
  md_branches (saved o) = md_branches st → ¬ created st o c.
Proof.
  intros Heq (commits & Hc & Hc'). rewrite Heq, Hc in Hc'.
  injection Hc' as Hc'. apply (f_equal length) in Hc'.
  rewrite length_app in Hc'; simpl in Hc'. lia.
Qed.

Lemma created_appended (st : Metadata) (o : outcome) (commits : list Commit)
    (c c' : Commit) :
  dget (md_current_branch st) (md_branches st) = Some commits →
  md_branches (saved o) = dset (md_current_branch st) (commits ++ [c]) (md_branches st) →
  created st o c' ↔ c' = c.
Proof.
  intros Hc Hb. unfold created. rewrite Hb, dget_dset_eq, Hc. split.
  - intros (commits' & [= <-] & [= Heq]). by apply app_inj_tail in Heq as [_ ->].
  - intros ->. by eexists.
Qed.

Lemma merge_prefix_inj (a b : string) : "merge-" +:+ a = "merge-" +:+ b ↔ a = b.
Proof. split; [apply (inj _)|by intros ->]. Qed.

(** C5, as the code has it.  [commit] appends a commit exactly when
    something is staged and the current branch exists, and the id of that
    commit is the SHA-1 digest of the message followed by the clock read
    [now_id]; its stored timestamp is the later clock read [now_ts].
    [merge] appends a commit exactly when the target exists, no conflict
    is found and the current branch exists, and the id of that commit is
    ["merge-"] followed by the clock read [now_id]: the message plays no
    part in it.  Two merge ids are therefore equal exactly when the two
    clock reads are. *)
Theorem commit_ids_come_from_clock_reads `{Host} :
  (∀ now_id now_ts message st c,
     created st (DVC.commit now_id now_ts message st) c ↔
     staging_map st ≠ [] ∧ current_branch_exists st
     ∧ c = {| commit_id := sha1_hexdigest (message +:+ now_id);
              commit_message := message;
              commit_timestamp := now_ts;
              commit_files := staging_map st;
              commit_parent := md_head st |})
  ∧ (∀ now_id now_ts target st c,
       created st (DVC.merge now_id now_ts target st) c ↔
       ∃ target_commits,
         dget target (md_branches st) = Some target_commits
         ∧ DVC.conflicts_of (DVC.flatten (current_commits st))
             (DVC.flatten target_commits) = []
         ∧ current_branch_exists st
         ∧ c = {| commit_id := "merge-" +:+ now_id;
                  commit_message :=
                    "Merge branch '" +:+ target +:+ "' into '"
                      +:+ md_current_branch st +:+ "'";
                  commit_timestamp := now_ts;
                  commit_files :=
                    dupdate (DVC.flatten (current_commits st))
                      (DVC.flatten target_commits);
                  commit_parent := md_head st |})
  ∧ (∀ now_id now_id' : string,
       "merge-" +:+ now_id = "merge-" +:+ now_id' ↔ now_id = now_id').
Proof.
  split_and!.
  - intros now_id now_ts message st c.
    unfold DVC.commit, staging_map, current_branch_exists.
    destruct (default [] (md_staging st)) as [|kv files] eqn:Hs.
    { split; [by intros ?%not_created_unchanged | by intros [? _]]. }
    destruct (dget (md_current_branch st) (md_branches st)) as [commits|] eqn:Hc.
    + rewrite created_appended by done. split; [|by intros (_ & _ & ->)].
      intros ->. split_and!; [done|by eexists|done].
    + split; [by intros ?%not_created_unchanged | by intros (_ & [? ?] & _)].
  - intros now_id now_ts target st c.
    unfold DVC.merge, current_branch_exists. fold (current_commits st).
    destruct (dget target (md_branches st)) as [target_commits|] eqn:Ht.
    2:{ split; [by intros ?%not_created_unchanged | by intros (? & ? & _)]. }
    destruct (DVC.conflicts_of _ _) as [|p l] eqn:Hconf.
    2:{ split; [by intros ?%not_created_unchanged|].
        intros (tc & [= <-] & Hnil & _). congruence. }
    destruct (dget (md_current_branch st) (md_branches st)) as [commits|] eqn:Hc.
    + rewrite created_appended by done. split.
      * intros ->. exists target_commits. split_and!; [done|done|by eexists|done].
      * by intros (tc & [= <-] & _ & _ & ->).
    + split; [by intros ?%not_created_unchanged|].
      by intros (tc & _ & _ & [? ?] & _).
  - apply merge_prefix_inj.
Qed.

(** C5, as stated, fails: two merges of different branches, one after
    the other in one repository, whose ids are formed from the same
    clock value leave two commits on [main] with one id and two
    messages. *)
Lemma merge_ids_collide_across_messages :
  let o1 := DVC.merge "2024-05-01T10:00:00.015000" "2024-05-01T10:00:00.015000"
              "a" Examples.three_branches in
  let o2 := DVC.merge "2024-05-01T10:00:00.015000" "2024-05-01T10:00:00.015000"
              "b" (saved o1) in
  ¬ (∀ c1 c2,
       created Examples.three_branches o1 c1 →
       created (saved o1) o2 c2 →
       commit_id c1 = commit_id c2 →
       commit_message c1 = commit_message c2
       ∧ commit_timestamp c1 = commit_timestamp c2).
Proof.
  intros o1 o2 Hclaim.
  pose (c1 := Examples.commit_of "merge-2024-05-01T10:00:00.015000"
                "Merge branch 'a' into 'main'" "2024-05-01T10:00:00.015000" [] None).
  pose (c2 := Examples.commit_of "merge-2024-05-01T10:00:00.015000"
                "Merge branch 'b' into 'main'" "2024-05-01T10:00:00.015000" []
                (Some "merge-2024-05-01T10:00:00.015000")).
  assert (created Examples.three_branches o1 c1) as H1
    by (exists []; split; reflexivity).
  assert (created (saved o1) o2 c2) as H2
    by (exists [c1]; split; reflexivity).
  destruct (Hclaim c1 c2 H1 H2 eq_refl) as [Hmsg _].
  discriminate Hmsg.
Qed.

(** * The staging area *)

Lemma elem_of_get_ignored_files `{Host} (lines : list string) (p : string) :
  p ∈ DVC.get_ignored_files (Some lines) ↔
  ∃ line, line ∈ lines ∧ str_strip line = p ∧ p ≠ "".
Proof.
  unfold DVC.get_ignored_files. rewrite elem_of_list_to_set, list_elem_of_fmap.
  split.
  - intros (line & -> & [Hne Hin]%list_elem_of_filter). by exists line.
  - intros (line & Hin & <- & Hne). exists line. split; [done|].
    by apply list_elem_of_filter.
Qed.

Lemma get_ignored_files_missing `{Host} (p : string) :
  p ∉ DVC.get_ignored_files None.
Proof. apply not_elem_of_empty. Qed.

Section staging_area.
Context `{Host}.

(** [add] raises its [ValueError] exactly when the absolute path does
    not start, as a string, with the path of the repository. *)
Lemma add_value_error_iff (repo_path : string) (ignore_file : option (list string))
    (content : os_error + string) (stored : option os_error)
    (file_path : string) (st : Metadata) :
  (∃ msg, result (DVC.add repo_path ignore_file content stored file_path st)
          = Raise (ValueError msg))
  ↔ String.prefix repo_path (os_path_abspath file_path) = false.
Proof.
  unfold DVC.add.
  destruct (String.prefix repo_path (os_path_abspath file_path)); simpl.
  - split; [|done]. intros [msg Hres]. revert Hres.
    case_decide; simpl; [done|]. by destruct content, stored.
  - split; [done|]. intros _. by eexists.
Qed.

(** C6, as the code has it.  [add] on a path whose relative form is an
    entry of the ignore list saves nothing: the document, and with it
    the staging map, is the one it loaded.  The path is in the staging
    map afterwards exactly when it was there before; a path that was
    not staged is not staged by the call, whatever the file holds. *)
Theorem add_ignored_keeps_staging
    (repo_path : string) (ignore_file : option (list string))
    (content : os_error + string) (stored : option os_error)
    (file_path : string) (st : Metadata) :
  os_path_relpath (os_path_abspath file_path) repo_path
    ∈ DVC.get_ignored_files ignore_file →
  let rel_path := os_path_relpath (os_path_abspath file_path) repo_path in
  let o := DVC.add repo_path ignore_file content stored file_path st in
  saved o = st
  ∧ staging_map (saved o) = staging_map st
  ∧ (dget rel_path (staging_map st) = None →
       dget rel_path (staging_map (saved o)) = None)
  ∧ (String.prefix repo_path (os_path_abspath file_path) = true →
       o = mkOutcome ["File '" +:+ rel_path +:+ "' is ignored."] (Return PyNone) st).
Proof.
  intros Hin rel_path o.
  assert (saved o = st) as Hsaved.
  { subst o. unfold DVC.add.
    destruct (String.prefix repo_path (os_path_abspath file_path)); simpl; [|done].
    by rewrite decide_True. }
  split_and!; [done|by rewrite Hsaved|by rewrite Hsaved|].
  intros Hin_scope. subst o. unfold DVC.add. rewrite Hin_scope; simpl.
  by rewrite decide_True.
Qed.

End staging_area.

Lemma add_ignored_keeps_staging_witness :
  DVC.add (H:=Examples.demo_host) "/repo" Examples.ignore_f (inr "v1") None
    "/repo/f.txt" DVC.initial_metadata
  = mkOutcome ["File 'f.txt' is ignored."] (Return PyNone) DVC.initial_metadata.
Proof.
  refine (proj2 (proj2 (proj2 (add_ignored_keeps_staging (H:=Examples.demo_host)
    "/repo" Examples.ignore_f (inr "v1") None "/repo/f.txt"
    DVC.initial_metadata _))) _).
  - apply (bool_decide_unpack _). vm_compute. exact I.
  - reflexivity.
Defined.

(** C6, as stated, fails: a path staged before it was listed in
    [.dvcignore] is still in the staging map after [add] is called on
    it. *)
Lemma add_ignored_path_still_staged :
  ¬ (∀ (H : Host) (repo_path : string) (ignore_file : option (list string))
       (content : os_error + string) (stored : option os_error)
       (file_path : string) (st : Metadata),
       os_path_relpath (os_path_abspath file_path) repo_path
         ∈ DVC.get_ignored_files ignore_file →
       dget (os_path_relpath (os_path_abspath file_path) repo_path)
         (staging_map
            (saved (DVC.add repo_path ignore_file content stored file_path st)))
       = None).
Proof.
  intros Hclaim.
  specialize (Hclaim Examples.demo_host "/repo" Examples.ignore_f (inr "v2") None
                "/repo/f.txt" Examples.staged_f).
  assert (dget "f.txt" (staging_map Examples.staged_f) = None) as Habsent; [|done].
  apply Hclaim. apply (bool_decide_unpack _). vm_compute. exact I.
Qed.

(** C3 at its failing input.  With the repository at [/repo], the file
    [/repo2/f.txt] is not inside the root, yet [add] raises nothing and
    stages it under a key that leaves the repository. *)
Lemma add_stages_sibling_of_root :
  ¬ Posix.inside "/repo" "/repo2/f.txt"
  ∧ DVC.add (H:=Examples.demo_host) "/repo" None (inr "data") None "/repo2/f.txt"
      DVC.initial_metadata
    = mkOutcome ["File '/repo2/f.txt' staged."] (Return PyNone)
        {| md_branches := [("main", [])];
           md_current_branch := "main";
           md_head := None;
           md_staging := Some [("../repo2/f.txt", "sha1:data")] |}.
Proof.
  split; [|reflexivity].
  intros [k Hk]. vm_compute in Hk. discriminate Hk.
Qed.

(** * The diff engine *)

Lemma commits_by_id_snoc (commits : list Commit) (c : Commit) :
  DVC.commits_by_id (commits ++ [c])
  = dset (commit_id c) c (DVC.commits_by_id commits).
Proof. unfold DVC.commits_by_id. by rewrite fold_left_app. Qed.

(** Looking an id up finds a commit of the sequence that carries it. *)
Lemma commits_by_id_Some (commits : list Commit) (i : string) (c : Commit) :
  dget i (DVC.commits_by_id commits) = Some c → c ∈ commits ∧ commit_id c = i.
Proof.
  induction commits as [|x commits IH] using rev_ind; [done|].
  rewrite commits_by_id_snoc, dget_dset. case_decide as Hx.
  - intros [= <-]. split; [|done]. apply elem_of_app. right. by left.
  - intros [Hin Hid]%IH. split; [|done]. apply elem_of_app. by left.
Qed.

Lemma commits_by_id_is_Some (commits : list Commit) (c : Commit) :
  c ∈ commits → is_Some (dget (commit_id c) (DVC.commits_by_id commits)).
Proof.
  induction commits as [|x commits IH] using rev_ind; [by intros ?%elem_of_nil|].
  rewrite commits_by_id_snoc, dget_dset. case_decide as Hx; [by eexists|].
  intros [Hin|Hin%list_elem_of_singleton]%elem_of_app; [by apply IH|].
  by subst.
Qed.

(** When ids do not repeat, an id finds the commit that carries it. *)
Lemma commits_by_id_NoDup (commits : list Commit) (c : Commit) :
  NoDup (commit_id <$> commits) → c ∈ commits →
  dget (commit_id c) (DVC.commits_by_id commits) = Some c.
Proof.
  induction commits as [|x commits IH] using rev_ind; [by intros _ ?%elem_of_nil|].
  rewrite fmap_app. intros (Hnd & Hx & _)%NoDup_app.
  rewrite commits_by_id_snoc, dget_dset.
  intros [Hin|Hin%list_elem_of_singleton]%elem_of_app.
  - rewrite decide_False; [by apply IH|].
    intros Heq. apply (Hx (commit_id c)).
    + apply list_elem_of_fmap. by exists c.
    + rewrite <- Heq. by left.
  - subst. by rewrite decide_True.
Qed.

(** [diff] on the ids of two commits of the current branch, taken in
    the two orders, reports the same modified set and exchanges the added
    and the removed sets.  With [a] and [b] the commits the two ids
    resolve to (the commits themselves when ids do not repeat on the
    branch), added is the paths of [b] that [a] lacks, removed the paths
    of [a] that [b] lacks, modified the paths of both whose digests
    differ. *)
Theorem diff_swaps_added_and_removed (st : Metadata) (c1 c2 : Commit) :
  c1 ∈ current_commits st →
  c2 ∈ current_commits st →
  ∃ a b r12 r21,
    DVC.diff (commit_id c1) (commit_id c2) st = DiffReport r12
    ∧ DVC.diff (commit_id c2) (commit_id c1) st = DiffReport r21
    ∧ added r12 = removed r21
    ∧ removed r12 = added r21
    ∧ modified r12 = modified r21
    ∧ (a ∈ current_commits st ∧ commit_id a = commit_id c1)
    ∧ (b ∈ current_commits st ∧ commit_id b = commit_id c2)
    ∧ (NoDup (commit_id <$> current_commits st) → a = c1 ∧ b = c2)
    ∧ (∀ p, p ∈ added r12 ↔
            is_Some (dget p (commit_files b)) ∧ dget p (commit_files a) = None)
    ∧ (∀ p, p ∈ removed r12 ↔
            is_Some (dget p (commit_files a)) ∧ dget p (commit_files b) = None)
    ∧ (∀ p, p ∈ modified r12 ↔
            ∃ h1 h2, dget p (commit_files a) = Some h1
                     ∧ dget p (commit_files b) = Some h2
                     ∧ h1 ≠ h2).
Proof.
  intros Hc1 Hc2.
  destruct (commits_by_id_is_Some _ _ Hc1) as [a Ha].
  destruct (commits_by_id_is_Some _ _ Hc2) as [b Hb].
  destruct (commits_by_id_Some _ _ _ Ha) as [Ha_in Ha_id].
  destruct (commits_by_id_Some _ _ _ Hb) as [Hb_in Hb_id].
  exists a, b. unfold DVC.diff. fold (current_commits st). rewrite Ha, Hb.
  do 2 eexists. split_and!; try done; simpl.
  - apply set_eq. intros p.
    rewrite !elem_of_filter, !elem_of_intersection.
    split; intros (Hne & H1 & H2); split_and!; try done; congruence.
  - intros Hnd. rewrite commits_by_id_NoDup in Ha, Hb by done. by simplify_eq.
  - intros p.
    rewrite elem_of_difference, !elem_of_list_to_set, !elem_of_dkeys.
    by rewrite eq_None_not_Some.
  - intros p.
    rewrite elem_of_difference, !elem_of_list_to_set, !elem_of_dkeys.
    by rewrite eq_None_not_Some.
  - intros p.
    rewrite elem_of_filter, elem_of_intersection, !elem_of_list_to_set, !elem_of_dkeys.
    split.
    + intros (Hne & [h1 H1] & [h2 H2]). exists h1, h2. split_and!; [done..|].
      congruence.
    + intros (h1 & h2 & H1 & H2 & Hne). split_and!; [congruence|by eexists..].
Qed.

Lemma diff_swaps_added_and_removed_witness :
  ∃ r12 r21,
    DVC.diff "c1" "c3" Examples.diverged = DiffReport r12
    ∧ DVC.diff "c3" "c1" Examples.diverged = DiffReport r21
    ∧ added r12 = removed r21
    ∧ removed r12 = added r21
    ∧ modified r12 = modified r21.
Proof.
  destruct (diff_swaps_added_and_removed Examples.diverged
              (Examples.commit_of "c1" "one" "t1" [("y.txt", "Y")] None)
              (Examples.commit_of "c3" "three" "t3" [("x.txt", "B")] (Some "c1")))
    as (a & b & r12 & r21 & H12 & H21 & Ha & Hr & Hm & _).
  - apply (bool_decide_unpack _). vm_compute. exact I.
  - apply (bool_decide_unpack _). vm_compute. exact I.
  - exists r12, r21. split_and!; [exact H12|exact H21|exact Ha|exact Hr|exact Hm].
Defined.

(** X21.  A commit of the current branch against itself: nothing added,
    removed or modified. *)
Lemma diff_same_commit (st : Metadata) (c : Commit) :
  c ∈ current_commits st →
  DVC.diff (commit_id c) (commit_id c) st
  = DiffReport {| added := ∅; removed := ∅; modified := ∅ |}.
Proof.
  intros Hc. destruct (commits_by_id_is_Some _ _ Hc) as [a Ha].
  unfold DVC.diff. fold (current_commits st). rewrite Ha.
  f_equal. f_equal; apply set_eq; intros p.
  - rewrite elem_of_difference.
    split; [by intros [? ?] | by intros ?%not_elem_of_empty].
  - rewrite elem_of_difference.
    split; [by intros [? ?] | by intros ?%not_elem_of_empty].
  - rewrite elem_of_filter.
    split; [by intros [? _] | by intros ?%not_elem_of_empty].
Qed.


(** * Scope of [add] *)

Lemma string_app_cons (a : ascii) (s t : string) :
  String a s +:+ t = String a (s +:+ t).
Proof. reflexivity. Qed.

Lemma string_app_assoc (s t u : string) : (s +:+ t) +:+ u = s +:+ (t +:+ u).
Proof.
  induction s as [|a s IH]; [done|]. by rewrite !string_app_cons, IH.
Qed.

Lemma string_prefix_app (s t : string) : String.prefix s (s +:+ t) = true.
Proof.
  induction s as [|a s IH]; [by destruct t|].
  rewrite string_app_cons; simpl. destruct (ascii_dec a a); [exact IH|done].
Qed.

Lemma path_of_app (l k : list string) :
  Posix.path_of (l ++ k) = Posix.path_of l +:+ Posix.path_of k.
Proof.
  induction l as [|x l IH]; simpl; [done|].
  by rewrite IH, !string_app_assoc.
Qed.

(** X22.  A location inside the root, both written as absolute
    normalised paths, passes the scope check of [add]: no [ValueError]. *)
Lemma add_inside_root_accepted `{Host} (root_parts path_parts : list string)
    (ignore_file : option (list string)) (content : os_error + string)
    (stored : option os_error) (file_path : string) (st : Metadata) :
  root_parts `prefix_of` path_parts →
  os_path_abspath file_path = Posix.path_of path_parts →
  ∀ msg, result (DVC.add (Posix.path_of root_parts) ignore_file content stored
                   file_path st)
         ≠ Raise (ValueError msg).
Proof.
  intros [k ->] Habs msg Hres.
  assert (String.prefix (Posix.path_of root_parts) (os_path_abspath file_path) = false)
    as Hp.
  { eapply (proj1 (add_value_error_iff _ _ _ _ _ _)). by eexists. }
  by rewrite Habs, path_of_app, string_prefix_app in Hp.
Qed.

(** * The scenario of the specification *)

(** After the scenario each branch holds its own commit and not the
    other's. *)
Example scenario_branches :
  md_branches (run (H:=Examples.demo_host) "/repo" Examples.scenario DVC.initial_metadata)
  = [("main", [Examples.on_main]); ("feature", [Examples.on_feature])].
Proof. reflexivity. Qed.

Example scenario_appended :
  appended_to (H:=Examples.demo_host) "/repo" "main" Examples.scenario
    (saved (DVC.branch "feature" DVC.initial_metadata)) = [Examples.on_main]
  ∧ appended_to (H:=Examples.demo_host) "/repo" "feature" Examples.scenario
      (saved (DVC.branch "feature" DVC.initial_metadata)) = [Examples.on_feature].
Proof. split; reflexivity. Qed.

(** Merging [feature] into [main] then returns the conflict on [x.txt]
    and the head of [main] stays where it was. *)
Example scenario_merge :
  let st := run (H:=Examples.demo_host) "/repo" Examples.scenario DVC.initial_metadata in
  result (DVC.merge "t3" "t3'" "feature" st) = Return (PyList ["x.txt"])
  ∧ saved (DVC.merge "t3" "t3'" "feature" st) = st
  ∧ md_head st = Some (commit_id Examples.on_main).
Proof. split_and!; reflexivity. Qed.

(** The two commits of one file, compared: modified, nothing added or
    removed. *)
Example diff_modified_only :
  DVC.diff "c2" "c3" (mkMetadata
    [("main", [Examples.commit_of "c2" "two" "t2" [("x.txt", "A")] None;
               Examples.commit_of "c3" "three" "t3" [("x.txt", "B")] (Some "c2")])]
    "main" (Some "c3") None)
  = DiffReport {| added := ∅; removed := ∅; modified := {["x.txt"]} |}.
Proof. vm_compute. reflexivity. Qed.


(** * Further properties of the operations *)

(** ** More on dictionaries *)

Section dict_more.
Context {V : Type}.
Implicit Types (d items : dict V) (k : string) (v : V).

Lemma dset_not_nil k v d : dset k v d ≠ [].
Proof. destruct d as [|[k' v'] d]; simpl; [done|]. by case_decide. Qed.

Lemma dset_dset_same k v v' d : dset k v (dset k v' d) = dset k v d.
Proof.
  induction d as [|[k0 v0] d IH]; simpl.
  - by rewrite decide_True.
  - destruct (decide (k = k0)) as [->|Hne]; simpl.
    + by rewrite decide_True.
    + rewrite decide_False by done. by rewrite IH.
Qed.

Lemma is_Some_dget_dset k k' v d :
  is_Some (dget k' (dset k v d)) ↔ k' = k ∨ is_Some (dget k' d).
Proof.
  rewrite dget_dset. case_decide as Hk.
  - split; [by left | by eexists].
  - split; [by right | by intros [?|?]].
Qed.

(** Which keys [{**d, **items}] has, whatever the items. *)
Lemma is_Some_dget_dupdate k d items :
  is_Some (dget k (dupdate d items)) ↔ is_Some (dget k d) ∨ is_Some (dget k items).
Proof.
  unfold dupdate. revert d.
  induction items as [|[k' v'] items IH]; intros d; simpl.
  - split; [by left | intros [?|[? ?]]; done].
  - rewrite IH, is_Some_dget_dset. case_decide as Hk.
    + subst. split; [intros _; right; by eexists | intros _; left; by left].
    + split; [intros [[?|?]|?]; by auto | intros [?|?]; by auto].
Qed.

End dict_more.

(** ** Staging *)

Section staging_more.
Context `{Host}.

(** X1.  When the path passes the scope check, is not ignored, the file
    can be read and the copy into the object store is made, [add]
    records the digest of the content under the relative path.  Every
    other staged path keeps its digest; a path that was already staged
    keeps its place, a new one goes to the end.  Branches, current branch
    and head are as before. *)
Theorem add_stages_digest
    (repo_path : string) (ignore_file : option (list string))
    (bytes : string) (file_path : string) (st : Metadata) :
  String.prefix repo_path (os_path_abspath file_path) = true →
  os_path_relpath (os_path_abspath file_path) repo_path
    ∉ DVC.get_ignored_files ignore_file →
  let rel_path := os_path_relpath (os_path_abspath file_path) repo_path in
  let o := DVC.add repo_path ignore_file (inr bytes) None file_path st in
  result o = Return PyNone
  ∧ dget rel_path (staging_map (saved o)) = Some (sha1_hexdigest bytes)
  ∧ (∀ p, p ≠ rel_path →
          dget p (staging_map (saved o)) = dget p (staging_map st))
  ∧ (is_Some (dget rel_path (staging_map st)) →
       dkeys (staging_map (saved o)) = dkeys (staging_map st))
  ∧ (dget rel_path (staging_map st) = None →
       staging_map (saved o)
       = staging_map st ++ [(rel_path, sha1_hexdigest bytes)])
  ∧ md_branches (saved o) = md_branches st
  ∧ md_current_branch (saved o) = md_current_branch st
  ∧ md_head (saved o) = md_head st.
Proof.
  intros Hscope Hign rel_path o. subst o. unfold DVC.add.
  rewrite Hscope; simpl. rewrite decide_False by done. simpl.
  unfold staging_map; simpl. split_and!; try done.
  - apply dget_dset_eq.
  - intros p Hp. by apply dget_dset_ne.
  - apply dkeys_dset_present.
  - apply dset_absent.
Qed.

(** X2.  Whatever happens, [add] leaves the branches, the current branch
    and the head as they are: staging never touches the history. *)
Theorem add_keeps_history
    (repo_path : string) (ignore_file : option (list string))
    (content : os_error + string) (stored : option os_error)
    (file_path : string) (st : Metadata) :
  let o := DVC.add repo_path ignore_file content stored file_path st in
  md_branches (saved o) = md_branches st
  ∧ md_current_branch (saved o) = md_current_branch st
  ∧ md_head (saved o) = md_head st.
Proof.
  unfold DVC.add.
  destruct (String.prefix repo_path (os_path_abspath file_path)); simpl; [|done].
  case_decide; simpl; [done|]. by destruct content, stored.
Qed.

(** X3.  Calling [add] again on the same file with the same content,
    the read and the copy going as they did the first time, gives the
    document of the first call. *)
Theorem add_twice_same_document
    (repo_path : string) (ignore_file : option (list string))
    (content : os_error + string) (stored : option os_error)
    (file_path : string) (st : Metadata) :
  let o := DVC.add repo_path ignore_file content stored file_path st in
  saved (DVC.add repo_path ignore_file content stored file_path (saved o))
  = saved o.
Proof.
  unfold DVC.add.
  destruct (String.prefix repo_path (os_path_abspath file_path)); simpl; [|done].
  destruct (decide (_ ∈ _)) as [Hign|Hign]; simpl; [done|].
  destruct content as [e|bytes]; simpl; [done|].
  destruct stored as [e|]; simpl; [done|].
  by rewrite dset_dset_same.
Qed.

(** [commit] when something is staged and the current branch exists. *)
Lemma commit_staged (now_id now_ts message : string) (st : Metadata)
    (commits : list Commit) :
  staging_map st ≠ [] →
  dget (md_current_branch st) (md_branches st) = Some commits →
  DVC.commit now_id now_ts message st
  = let c := {| commit_id := sha1_hexdigest (message +:+ now_id);
                commit_message := message;
                commit_timestamp := now_ts;
                commit_files := staging_map st;
                commit_parent := md_head st |} in
    mkOutcome ["Commit '" +:+ commit_id c +:+ "' created."] (Return PyNone)
      {| md_branches := dset (md_current_branch st) (commits ++ [c]) (md_branches st);
         md_current_branch := md_current_branch st;
         md_head := Some (commit_id c);
         md_staging := None |}.
Proof.
  intros Hs Hcur. unfold DVC.commit, staging_map in *.
  destruct (default [] (md_staging st)) as [|kv files]; [done|].
  by rewrite Hcur.
Qed.

(** X4.  [add] then [commit], when [add] passes the scope check, the
    path is not ignored, the file is read and the copy into the object
    store is made: the commit appended to the current branch records,
    under the relative path, the digest taken over the content as it was
    when [add] ran, and its files are the staging map [add] left. *)
Theorem add_then_commit_records_digest
    (repo_path : string) (ignore_file : option (list string))
    (bytes : string) (file_path : string)
    (now_id now_ts message : string) (st : Metadata) :
  String.prefix repo_path (os_path_abspath file_path) = true →
  os_path_relpath (os_path_abspath file_path) repo_path
    ∉ DVC.get_ignored_files ignore_file →
  current_branch_exists st →
  let rel_path := os_path_relpath (os_path_abspath file_path) repo_path in
  let st1 := saved (DVC.add repo_path ignore_file (inr bytes) None file_path st) in
  let o := DVC.commit now_id now_ts message st1 in
  ∃ c, created st1 o c
       ∧ dget rel_path (commit_files c) = Some (sha1_hexdigest bytes)
       ∧ commit_files c = dset rel_path (sha1_hexdigest bytes) (staging_map st)
       ∧ commit_parent c = md_head st
       ∧ md_staging (saved o) = None.
Proof.
  intros Hscope Hign [commits Hcur] rel_path st1 o.
  assert (st1 = {| md_branches := md_branches st;
                   md_current_branch := md_current_branch st;
                   md_head := md_head st;
                   md_staging :=
                     Some (dset rel_path (sha1_hexdigest bytes) (staging_map st)) |})
    as Hst1.
  { subst st1. unfold DVC.add. rewrite Hscope; simpl.
    by rewrite decide_False by done. }
  subst o. rewrite (commit_staged now_id now_ts message st1 commits).
  - clearbody st1. subst st1. simpl. eexists. split.
    { exists commits; simpl. split; [done|]. apply dget_dset_eq. }
    simpl. split_and!; [apply dget_dset_eq|done..].
  - rewrite Hst1. apply dset_not_nil.
  - by rewrite Hst1.
Qed.

(** X5.  A [commit] that returns is followed by nothing to commit: the
    next [commit] reports it and leaves the document alone. *)
Theorem commit_then_commit_is_noop
    (now_id now_ts message now_id' now_ts' message' : string) (st : Metadata) :
  result (DVC.commit now_id now_ts message st) = Return PyNone →
  DVC.commit now_id' now_ts' message' (saved (DVC.commit now_id now_ts message st))
  = mkOutcome ["No changes to commit."] (Return PyNone)
      (saved (DVC.commit now_id now_ts message st)).
Proof.
  unfold DVC.commit.
  destruct (default [] (md_staging st)) as [|kv files] eqn:Hs; simpl.
  - intros _. by rewrite Hs.
  - destruct (dget (md_current_branch st) (md_branches st)); simpl; done.
Qed.

End staging_more.

Lemma add_stages_digest_witness :
  let o := DVC.add (H:=Examples.demo_host) "/repo" Examples.ignore_f (inr "v2") None
             "/repo/a.txt" Samples.working in
  result o = Return PyNone
  ∧ dget "a.txt" (staging_map (saved o)) = Some "sha1:v2".
Proof.
  intros o.
  destruct (add_stages_digest (H:=Examples.demo_host) "/repo" Examples.ignore_f
              "v2" "/repo/a.txt" Samples.working) as (Hr & Hd & _).
  - reflexivity.
  - apply (bool_decide_unpack _). vm_compute. exact I.
  - split; [exact Hr|exact Hd].
Defined.

Lemma add_then_commit_records_digest_witness :
  let st1 := saved (DVC.add (H:=Examples.demo_host) "/repo" None (inr "v2") None
                      "/repo/b.txt" Samples.working) in
  ∃ c, created st1 (DVC.commit (H:=Examples.demo_host) "t1" "t2" "m" st1) c
       ∧ dget "b.txt" (commit_files c) = Some "sha1:v2".
Proof.
  intros st1.
  destruct (add_then_commit_records_digest (H:=Examples.demo_host) "/repo" None
              "v2" "/repo/b.txt" "t1" "t2" "m" Samples.working)
    as (c & Hc & Hd & _).
  - reflexivity.
  - apply (bool_decide_unpack _). vm_compute. exact I.
  - by eexists.
  - exists c. split; [exact Hc|exact Hd].
Defined.

Lemma commit_then_commit_is_noop_witness :
  let st1 := saved (DVC.commit (H:=Examples.demo_host) "t1" "t2" "m" Samples.working) in
  DVC.commit (H:=Examples.demo_host) "t3" "t4" "again" st1
  = mkOutcome ["No changes to commit."] (Return PyNone) st1.
Proof.
  intros st1.
  apply (commit_then_commit_is_noop (H:=Examples.demo_host)
           "t1" "t2" "m" "t3" "t4" "again" Samples.working).
  reflexivity.
Defined.

(** ** Invariants of sessions *)

Lemma parent_chain_snoc (prev : option string) (commits : list Commit) (c : Commit) :
  parent_chain prev commits →
  commit_parent c = from_option (λ l, Some (commit_id l)) prev (last commits) →
  parent_chain prev (commits ++ [c]).
Proof.
  revert prev. induction commits as [|x commits IH]; intros prev; simpl.
  - by intros _ ->.
  - intros [Hx Hchain] Hc. split; [done|]. apply IH; [done|].
    rewrite Hc, last_cons. by destruct (last commits).
Qed.

Lemma current_commits_dset (st st' : Metadata) (commits : list Commit) :
  md_current_branch st' = md_current_branch st →
  md_branches st' = dset (md_current_branch st) commits (md_branches st) →
  current_commits st' = commits.
Proof.
  intros Hc Hb. unfold current_commits. by rewrite Hc, Hb, dget_dset_eq.
Qed.

Section session_invariants.
Context `{Host} (repo_path : string).


(** What a command does to the document, in full: nothing to the
    history, or one commit on the current branch with the old head as
    parent and its id as the new head, or a fresh name bound to the
    current sequence, or a move to another branch. *)
Lemma step_history_cases (o : op) (st : Metadata) :
  let st' := saved (step repo_path o st) in
  (md_branches st' = md_branches st
   ∧ md_current_branch st' = md_current_branch st
   ∧ md_head st' = md_head st)
  ∨ (∃ commits c,
        dget (md_current_branch st) (md_branches st) = Some commits
        ∧ md_branches st'
          = dset (md_current_branch st) (commits ++ [c]) (md_branches st)
        ∧ md_current_branch st' = md_current_branch st
        ∧ md_head st' = Some (commit_id c)
        ∧ commit_parent c = md_head st)
  ∨ (∃ name commits,
        dget name (md_branches st) = None
        ∧ dget (md_current_branch st) (md_branches st) = Some commits
        ∧ md_branches st' = dset name commits (md_branches st)
        ∧ md_current_branch st' = md_current_branch st
        ∧ md_head st' = md_head st)
  ∨ (∃ name commits,
        dget name (md_branches st) = Some commits
        ∧ md_branches st' = md_branches st
        ∧ md_current_branch st' = name
        ∧ md_head st' = commit_id <$> last commits).
Proof.
  destruct o as [ign content stored path|now_id now_ts message|name|name
                 |now_id now_ts target];
    simpl.
  - left. unfold DVC.add. repeat (case_match; simpl); done.
  - unfold DVC.commit.
    destruct (default [] (md_staging st)); [by left|].
    destruct (dget (md_current_branch st) (md_branches st)) eqn:Hc; [|by left].
    right; left. do 2 eexists. by split_and!.
  - unfold DVC.branch.
    destruct (dget name (md_branches st)) eqn:Hn; [by left|].
    destruct (dget (md_current_branch st) (md_branches st)) eqn:Hc; [|by left].
    right; right; left. do 2 eexists. by split_and!.
  - unfold DVC.checkout.
    destruct (dget name (md_branches st)) eqn:Hn; [|by left].
    right; right; right. do 2 eexists. by split_and!.
  - unfold DVC.merge.
    destruct (dget target (md_branches st)); [|by left].
    destruct (DVC.conflicts_of _ _); [|by left].
    destruct (dget (md_current_branch st) (md_branches st)) eqn:Hc; [|by left].
    right; left. do 2 eexists. by split_and!.
Qed.

Lemma step_head_consistent (o : op) (st : Metadata) :
  head_consistent st → head_consistent (saved (step repo_path o st)).
Proof.
  unfold head_consistent. intros Hh.
  destruct (step_history_cases o st)
    as [(Hb & Hc & Hd)|[(commits & c & Hcur & Hb & Hc & Hd & _)
       |[(name & commits & Hn & Hcur & Hb & Hc & Hd)
       |(name & commits & Hn & Hb & Hc & Hd)]]].
  - unfold current_commits in *. by rewrite Hb, Hc, Hd.
  - rewrite (current_commits_dset st _ (commits ++ [c])) by done.
    by rewrite Hd, last_snoc.
  - unfold current_commits in *. rewrite Hb, Hc, Hd.
    rewrite dget_dset_ne by congruence. done.
  - unfold current_commits. by rewrite Hb, Hc, Hd, Hn.
Qed.

Lemma step_chained (o : op) (st : Metadata) :
  head_consistent st → chained st → chained (saved (step repo_path o st)).
Proof.
  unfold head_consistent, chained. intros Hh Hch b cs.
  destruct (step_history_cases o st)
    as [(Hb & _)|[(commits & c & Hcur & Hb & _ & _ & Hp)
       |[(name & commits & Hn & Hcur & Hb & _)
       |(name & commits & Hn & Hb & _)]]]; rewrite Hb.
  - apply Hch.
  - rewrite dget_dset. case_decide; [|apply Hch].
    intros [= <-]. apply parent_chain_snoc; [by eapply Hch|].
    rewrite Hp, Hh. unfold current_commits. rewrite Hcur; simpl.
    by destruct (last commits).
  - rewrite dget_dset. case_decide; [|apply Hch].
    intros [= <-]. by eapply Hch.
  - apply Hch.
Qed.

Lemma run_history_ok (ops : list op) (st : Metadata) :
  head_consistent st → chained st →
  head_consistent (run repo_path ops st) ∧ chained (run repo_path ops st).
Proof.
  revert st. induction ops as [|o ops IH]; intros st Hh Hch; simpl; [done|].
  apply IH; [by apply step_head_consistent | by apply step_chained].
Qed.

(** X7.  In every document reached from a fresh repository, the current
    branch is one of the branches and the head is the id of the last
    commit of the current branch, or [None] when it has none. *)
Theorem reachable_head_is_last_commit (ops : list op) :
  let st := run repo_path ops (DVC.init None) in
  current_branch_exists st
  ∧ md_head st = commit_id <$> last (current_commits st)
  ∧ (current_commits st = [] → md_head st = None).
Proof.
  intros st. assert (head_consistent st) as Hh.
  { apply run_history_ok; [done|]. intros b cs. simpl.
    case_decide; [|done]. by intros [= <-]. }
  split_and!; [|exact Hh|].
  - apply run_current_branch_exists. by eexists.
  - intros Hnil. by rewrite Hh, Hnil.
Qed.

(** X8.  In every document reached from a fresh repository, every
    branch is a chain: its first commit has no parent and every other
    commit has the id of the commit before it as parent. *)
Theorem reachable_parent_chain (ops : list op) :
  chained (run repo_path ops (DVC.init None)).
Proof.
  apply run_history_ok; [done|]. intros b cs. simpl.
  case_decide; [|done]. by intros [= <-].
Qed.

(** X9.  History is append-only: over any session, a branch that exists
    stays, and the sequence it had is a prefix of the sequence it has
    afterwards. *)
Theorem history_is_append_only (ops : list op) (st : Metadata) (b : string)
    (commits : list Commit) :
  dget b (md_branches st) = Some commits →
  ∃ commits',
    dget b (md_branches (run repo_path ops st)) = Some commits'
    ∧ commits `prefix_of` commits'.
Proof.
  intros Hb. eexists. split; [by apply run_branch_sequence|]. by eexists.
Qed.

End session_invariants.


Lemma history_is_append_only_witness :
  ∃ commits',
    dget "main" (md_branches (run (H:=Examples.demo_host) "/repo"
                                [OpCommit "t1" "t2" "m"] Samples.working))
    = Some commits'
    ∧ [Examples.commit_of "c1" "one" "t1" [("y.txt", "Y")] None] `prefix_of` commits'.
Proof.
  apply (history_is_append_only (H:=Examples.demo_host) "/repo"
           [OpCommit "t1" "t2" "m"] Samples.working "main").
  reflexivity.
Defined.

(** ** Merging *)

Lemma conflicts_of_same (files : dict string) : DVC.conflicts_of files files = [].
Proof.
  apply elem_of_nil_inv. intros p.
  rewrite elem_of_conflicts_of. intros (h1 & h2 & H1 & H2 & Hne). congruence.
Qed.

Lemma reported_conflicts_merge (now_id now_ts target : string) (st : Metadata)
    (target_commits : list Commit) :
  dget target (md_branches st) = Some target_commits →
  reported_conflicts (DVC.merge now_id now_ts target st)
  = DVC.conflicts_of (DVC.flatten (current_commits st)) (DVC.flatten target_commits).
Proof.
  intros Ht. unfold reported_conflicts, DVC.merge. rewrite Ht.
  fold (current_commits st).
  destruct (DVC.conflicts_of _ _); [|done].
  by destruct (dget (md_current_branch st) (md_branches st)).
Qed.

(** [merge] on an existing target with no conflict and an existing
    current branch. *)
Lemma merge_clean (now_id now_ts target : string) (st : Metadata)
    (commits target_commits : list Commit) :
  dget target (md_branches st) = Some target_commits →
  dget (md_current_branch st) (md_branches st) = Some commits →
  DVC.conflicts_of (DVC.flatten commits) (DVC.flatten target_commits) = [] →
  DVC.merge now_id now_ts target st
  = let c := {| commit_id := "merge-" +:+ now_id;
                commit_message :=
                  "Merge branch '" +:+ target +:+ "' into '"
                    +:+ md_current_branch st +:+ "'";
                commit_timestamp := now_ts;
                commit_files := dupdate (DVC.flatten commits) (DVC.flatten target_commits);
                commit_parent := md_head st |} in
    mkOutcome
      ["Branch '" +:+ target +:+ "' successfully merged into '"
         +:+ md_current_branch st +:+ "'."]
      (Return PyNone)
      {| md_branches := dset (md_current_branch st) (commits ++ [c]) (md_branches st);
         md_current_branch := md_current_branch st;
         md_head := Some (commit_id c);
         md_staging := md_staging st |}.
Proof.
  intros Ht Hc Hnil. unfold DVC.merge. rewrite Ht, Hc; simpl. by rewrite Hnil.
Qed.

(** A [merge] that returns [None] found the target, no conflict, and the
    current branch. *)
Lemma merge_returns_None_inv (now_id now_ts target : string) (st : Metadata) :
  result (DVC.merge now_id now_ts target st) = Return PyNone →
  ∃ commits target_commits,
    dget target (md_branches st) = Some target_commits
    ∧ dget (md_current_branch st) (md_branches st) = Some commits
    ∧ DVC.conflicts_of (DVC.flatten commits) (DVC.flatten target_commits) = [].
Proof.
  unfold DVC.merge.
  destruct (dget target (md_branches st)) as [target_commits|]; [|done].
  destruct (DVC.conflicts_of _ _) eqn:Hconf; [|done].
  destruct (dget (md_current_branch st) (md_branches st)) as [commits|] eqn:Hc;
    simpl in *; [|done].
  intros _. by eauto.
Qed.

(** X10.  Flattening loses no path: the flattened map of a sequence has
    a digest for a path exactly when some commit of the sequence records
    that path, however early. *)
Theorem flatten_resolves_every_committed_path (commits : list Commit) (p : string) :
  is_Some (dget p (DVC.flatten commits))
  ↔ ∃ c, c ∈ commits ∧ is_Some (dget p (commit_files c)).
Proof.
  induction commits as [|c commits IH] using rev_ind.
  - split; [by intros [? ?] | by intros (c & ?%elem_of_nil & _)].
  - rewrite flatten_snoc, is_Some_dget_dupdate, IH. split.
    + intros [(c0 & Hin & Hp)|Hp].
      * exists c0. split; [|done]. apply elem_of_app. by left.
      * exists c. split; [|done]. apply elem_of_app. right. by left.
    + intros (c0 & [Hin|Hin%list_elem_of_singleton]%elem_of_app & Hp).
      * left. by exists c0.
      * subst c0. by right.
Qed.

(** X11.  Merging the current branch into itself never conflicts: it
    returns [None] and appends a merge commit. *)
Theorem merge_into_itself_never_conflicts (now_id now_ts : string) (st : Metadata) :
  current_branch_exists st →
  let o := DVC.merge now_id now_ts (md_current_branch st) st in
  result o = Return PyNone ∧ ∃ c, created st o c.
Proof.
  intros [commits Hc] o. subst o.
  rewrite (merge_clean _ _ _ st commits commits Hc Hc (conflicts_of_same _)).
  simpl. split; [done|]. eexists. exists commits. simpl.
  split; [done|]. apply dget_dset_eq.
Qed.

(** X12.  Conflicts do not depend on the direction: merging [b] while on
    [a] and merging [a] while on [b] report the same paths. *)
Theorem merge_conflicts_are_symmetric
    (now_id now_ts now_id' now_ts' : string) (st st' : Metadata)
    (commits_a commits_b : list Commit) :
  md_branches st' = md_branches st →
  dget (md_current_branch st) (md_branches st) = Some commits_a →
  dget (md_current_branch st') (md_branches st) = Some commits_b →
  ∀ p, p ∈ reported_conflicts (DVC.merge now_id now_ts (md_current_branch st') st)
       ↔ p ∈ reported_conflicts (DVC.merge now_id' now_ts' (md_current_branch st) st').
Proof.
  intros Hb Ha Hb' p.
  rewrite (reported_conflicts_merge _ _ _ st commits_b) by done.
  rewrite (reported_conflicts_merge _ _ _ st' commits_a) by by rewrite Hb.
  unfold current_commits. rewrite Hb, Ha, Hb'; simpl.
  rewrite !elem_of_conflicts_of. split.
  - intros (h1 & h2 & H1 & H2 & Hne). exists h2, h1. by split_and!.
  - intros (h1 & h2 & H1 & H2 & Hne). exists h2, h1. by split_and!.
Qed.

(** X13.  A merge without conflict appends to the current branch, and to
    no other, a commit whose parent is the head it found and whose files
    are the union of the two flattened maps: a path of the target has the
    target's digest, any other path the current branch's.  The new head
    is the merge commit; current branch and staging are kept. *)
Theorem merge_without_conflict
    (now_id now_ts target : string) (st : Metadata)
    (commits target_commits : list Commit) :
  dget target (md_branches st) = Some target_commits →
  dget (md_current_branch st) (md_branches st) = Some commits →
  DVC.conflicts_of (DVC.flatten commits) (DVC.flatten target_commits) = [] →
  let o := DVC.merge now_id now_ts target st in
  ∃ c,
    result o = Return PyNone
    ∧ dget (md_current_branch st) (md_branches (saved o)) = Some (commits ++ [c])
    ∧ (∀ b, b ≠ md_current_branch st →
            dget b (md_branches (saved o)) = dget b (md_branches st))
    ∧ commit_parent c = md_head st
    ∧ (∀ p, dget p (commit_files c)
            = from_option Some (dget p (DVC.flatten commits))
                (dget p (DVC.flatten target_commits)))
    ∧ md_head (saved o) = Some (commit_id c)
    ∧ md_current_branch (saved o) = md_current_branch st
    ∧ md_staging (saved o) = md_staging st.
Proof.
  intros Ht Hc Hnil o. subst o.
  rewrite (merge_clean _ _ _ st commits target_commits Ht Hc Hnil). simpl.
  eexists. split; [done|]. split; [apply dget_dset_eq|].
  split_and!; try done.
  - intros b Hb. by apply dget_dset_ne.
  - intros p. simpl. apply dget_dupdate, dict_ok_flatten.
Qed.

(** X14.  After a merge without conflict, merging the same branch again
    finds no conflict either. *)
Theorem merge_again_finds_no_conflict
    (now_id now_ts now_id' now_ts' target : string) (st : Metadata) :
  result (DVC.merge now_id now_ts target st) = Return PyNone →
  result (DVC.merge now_id' now_ts' target (saved (DVC.merge now_id now_ts target st)))
  = Return PyNone.
Proof.
  intros (commits & target_commits & Ht & Hc & Hnil)%merge_returns_None_inv.
  rewrite (merge_clean now_id now_ts target st commits target_commits Ht Hc Hnil).
  simpl. set (c := mkCommit _ _ _ _ _). set (st1 := mkMetadata _ _ _ _).
  assert (dget (md_current_branch st1) (md_branches st1) = Some (commits ++ [c]))
    as Hc1 by apply dget_dset_eq.
  destruct (decide (target = md_current_branch st)) as [->|Hne].
  - by rewrite (merge_clean _ _ _ st1 _ _ Hc1 Hc1 (conflicts_of_same _)).
  - assert (dget target (md_branches st1) = Some target_commits) as Ht1.
    { simpl. by rewrite dget_dset_ne. }
    rewrite (merge_clean _ _ _ st1 _ _ Ht1 Hc1); [done|].
    apply elem_of_nil_inv. intros p.
    rewrite elem_of_conflicts_of. intros (h1 & h2 & H1 & H2 & Hdiff).
    rewrite flatten_snoc in H1.
    assert (dict_ok (commit_files c)) as Hok
      by apply dict_ok_dupdate, dict_ok_flatten.
    rewrite dget_dupdate in H1 by done. subst c. simpl in H1.
    rewrite dget_dupdate in H1 by apply dict_ok_flatten.
    rewrite H2 in H1. simpl in H1. congruence.
Qed.

Lemma merge_into_itself_never_conflicts_witness :
  result (DVC.merge "t1" "t2" "main" Examples.diverged) = Return PyNone.
Proof.
  apply (merge_into_itself_never_conflicts "t1" "t2" Examples.diverged).
  by eexists.
Defined.

Lemma merge_conflicts_are_symmetric_witness :
  "x.txt" ∈ reported_conflicts (DVC.merge "t1" "t2" "feature" Examples.diverged)
  ↔ "x.txt" ∈ reported_conflicts
                (DVC.merge "t3" "t4" "main" Samples.diverged_on_feature).
Proof.
  exact (merge_conflicts_are_symmetric "t1" "t2" "t3" "t4"
           Examples.diverged Samples.diverged_on_feature _ _
           eq_refl eq_refl eq_refl "x.txt").
Defined.

Lemma merge_without_conflict_witness :
  ∃ c,
    result (DVC.merge "t1" "t2" "feature" Samples.disjoint_work) = Return PyNone
    ∧ dget "main" (md_branches (saved (DVC.merge "t1" "t2" "feature" Samples.disjoint_work)))
      = Some ([Examples.commit_of "c1" "one" "t1" [("y.txt", "Y")] None] ++ [c])
    ∧ commit_parent c = Some "c1".
Proof.
  destruct (merge_without_conflict "t1" "t2" "feature" Samples.disjoint_work
              _ _ eq_refl eq_refl eq_refl) as (c & Hr & Hb & _ & Hp & _).
  exists c. split_and!; [exact Hr|exact Hb|exact Hp].
Defined.

Lemma merge_again_finds_no_conflict_witness :
  result (DVC.merge "t3" "t4" "feature"
            (saved (DVC.merge "t1" "t2" "feature" Samples.disjoint_work)))
  = Return PyNone.
Proof.
  apply (merge_again_finds_no_conflict "t1" "t2" "t3" "t4" "feature"
           Samples.disjoint_work).
  reflexivity.
Defined.

(** ** Moving between branches, and the log *)

(** X15.  Going to another branch and back restores the document, when
    the head was the last commit of the current branch to begin with. *)
Theorem checkout_round_trip (b : string) (st : Metadata) :
  head_consistent st →
  current_branch_exists st →
  is_Some (dget b (md_branches st)) →
  saved (DVC.checkout (md_current_branch st) (saved (DVC.checkout b st))) = st.
Proof.
  unfold head_consistent, current_commits. intros Hh [cs Hc] [cb Hb].
  unfold DVC.checkout. rewrite Hb; simpl. rewrite Hc; simpl.
  rewrite Hc in Hh; simpl in Hh. destruct st; simpl in *. by rewrite Hh.
Qed.

(** X16.  A new branch starts where the current one stands: after
    [branch] on a fresh name and [checkout] of it, the head is the one
    before, the current branch has the same commits and [log] prints the
    same, and what was staged is still staged. *)
Theorem branch_then_checkout_keeps_head (name : string) (st : Metadata) :
  head_consistent st →
  current_branch_exists st →
  dget name (md_branches st) = None →
  let st2 := saved (DVC.checkout name (saved (DVC.branch name st))) in
  md_current_branch st2 = name
  ∧ md_head st2 = md_head st
  ∧ current_commits st2 = current_commits st
  ∧ DVC.log st2 = DVC.log st
  ∧ md_staging st2 = md_staging st.
Proof.
  intros Hh [cs Hc] Hn st2. subst st2.
  unfold head_consistent, current_commits, DVC.log in *.
  unfold DVC.branch. rewrite Hn, Hc; simpl.
  unfold DVC.checkout; simpl. rewrite dget_dset_eq; simpl.
  rewrite dget_dset_eq. rewrite Hc in Hh. by split_and!.
Qed.

(** X17.  After a [commit] that records something, [log] prints the
    entry of the new commit first and then what it printed before. *)
Theorem log_after_commit `{Host} (now_id now_ts message : string) (st : Metadata) :
  staging_map st ≠ [] →
  current_branch_exists st →
  let o := DVC.commit now_id now_ts message st in
  ∃ c, created st o c
       ∧ commit_message c = message
       ∧ DVC.log (saved o) = DVC.log_entry c :: DVC.log st.
Proof.
  intros Hs [cs Hc] o. subst o. rewrite (commit_staged _ _ _ st cs Hs Hc). simpl.
  eexists. split.
  { exists cs; simpl. split; [done|]. apply dget_dset_eq. }
  split; [done|]. unfold DVC.log; simpl.
  rewrite dget_dset_eq, Hc; simpl. by rewrite reverse_snoc.
Qed.

Lemma checkout_round_trip_witness :
  saved (DVC.checkout "main" (saved (DVC.checkout "feature" Samples.working)))
  = Samples.working.
Proof.
  apply (checkout_round_trip "feature" Samples.working);
    [reflexivity | by eexists | by eexists].
Defined.

Lemma branch_then_checkout_keeps_head_witness :
  md_head (saved (DVC.checkout "topic" (saved (DVC.branch "topic" Samples.working))))
  = Some "c1".
Proof.
  refine (proj1 (proj2 (branch_then_checkout_keeps_head "topic" Samples.working _ _ _)));
    [reflexivity | by eexists | reflexivity].
Defined.

Lemma log_after_commit_witness :
  ∃ c, created Samples.working
         (DVC.commit (H:=Examples.demo_host) "t1" "t2" "m" Samples.working) c
       ∧ commit_message c = "m"
       ∧ DVC.log (saved (DVC.commit (H:=Examples.demo_host) "t1" "t2" "m"
                           Samples.working))
         = DVC.log_entry c :: DVC.log Samples.working.
Proof.
  apply (log_after_commit (H:=Examples.demo_host) "t1" "t2" "m" Samples.working).
  - vm_compute. discriminate.
  - by eexists.
Defined.

(** ** More on [diff] *)

Lemma is_Some_commits_by_id (commits : list Commit) (i : string) :
  is_Some (dget i (DVC.commits_by_id commits)) ↔ i ∈ commit_id <$> commits.
Proof.
  rewrite list_elem_of_fmap. split.
  - intros [c [Hin Hid]%commits_by_id_Some]. by exists c.
  - intros (c & -> & Hin). by apply commits_by_id_is_Some.
Qed.

(** X18.  [diff] reports that a commit was not found exactly when one of
    the two ids is not the id of a commit of the current branch; commits
    of other branches do not count. *)
Theorem diff_not_found_iff (commit1_id commit2_id : string) (st : Metadata) :
  DVC.diff commit1_id commit2_id st = DiffNotFound
  ↔ commit1_id ∉ commit_id <$> current_commits st
    ∨ commit2_id ∉ commit_id <$> current_commits st.
Proof.
  rewrite <- !is_Some_commits_by_id, <- !eq_None_not_Some.
  unfold DVC.diff. fold (current_commits st).
  destruct (dget commit1_id _) as [c1|]; [|by split; [left|]].
  destruct (dget commit2_id _) as [c2|]; [|by split; [right|]].
  split; [done|]. by intros [?|?].
Qed.

(** X19.  No path is reported twice: the added, removed and modified
    sets of a report are pairwise disjoint. *)
Theorem diff_sets_are_disjoint (commit1_id commit2_id : string) (st : Metadata)
    (r : DiffSets) :
  DVC.diff commit1_id commit2_id st = DiffReport r →
  added r ## removed r ∧ added r ## modified r ∧ removed r ## modified r.
Proof.
  unfold DVC.diff.
  destruct (dget commit1_id _) as [c1|]; [|done].
  destruct (dget commit2_id _) as [c2|]; [|done].
  intros [= <-]; simpl. split_and!; apply elem_of_disjoint; intros p.
  - by intros [? ?]%elem_of_difference [? ?]%elem_of_difference.
  - by intros [? ?]%elem_of_difference
         [_ [? ?]%elem_of_intersection]%elem_of_filter.
  - by intros [? ?]%elem_of_difference
         [_ [? ?]%elem_of_intersection]%elem_of_filter.
Qed.

Lemma diff_sets_are_disjoint_witness :
  ∃ r, DVC.diff "c1" "c3" Examples.diverged = DiffReport r
       ∧ added r ## removed r ∧ added r ## modified r ∧ removed r ## modified r.
Proof.
  eexists. split; [reflexivity|].
  apply (diff_sets_are_disjoint "c1" "c3" Examples.diverged). reflexivity.
Defined.

Lemma diff_same_commit_witness :
  DVC.diff "c3" "c3" Examples.diverged
  = DiffReport {| added := ∅; removed := ∅; modified := ∅ |}.
Proof.
  apply (diff_same_commit Examples.diverged
           (Examples.commit_of "c3" "three" "t3" [("x.txt", "B")] (Some "c1"))).
  apply (bool_decide_unpack _). vm_compute. exact I.
Defined.

Lemma add_inside_root_accepted_witness :
  result (DVC.add (H:=Examples.demo_host) "/repo" None (inr "x") None
            "/repo/sub/f.txt" Samples.working)
  ≠ Raise (ValueError "File must be within the repository.").
Proof.
  refine (add_inside_root_accepted (H:=Examples.demo_host)
            ["repo"] ["repo"; "sub"; "f.txt"] None (inr "x") None
            "/repo/sub/f.txt" Samples.working _ _
            "File must be within the repository.").
  - by exists ["sub"; "f.txt"].
  - reflexivity.
Defined.

(** ** [diff] and repeated ids *)

(** An id carried by one commit only resolves to that commit. *)
Lemma commits_by_id_unique (commits : list Commit) (c : Commit) :
  c ∈ commits →
  (∀ c', c' ∈ commits → commit_id c' = commit_id c → c' = c) →
  dget (commit_id c) (DVC.commits_by_id commits) = Some c.
Proof.
  intros Hin Huniq. destruct (commits_by_id_is_Some _ _ Hin) as [a Ha].
  destruct (commits_by_id_Some _ _ _ Ha) as [Ha_in Ha_id].
  by rewrite Ha, (Huniq a Ha_in Ha_id).
Qed.



(** The session [Samples.twin_merges] leaves two commits with one id on
    [main]. *)
Example twin_merges_main :
  current_commits (run (H:=Examples.demo_host) "/repo" Samples.twin_merges
                     (DVC.init None))
  = [Samples.first_merge; Samples.second_merge].
Proof. reflexivity. Qed.


(** ** Failures of the file system during [add] *)

(** X23.  When the path passes the scope check and is not ignored, a
    failure to read the file, or a failure of the copy into the object
    store after the file was read, makes [add] raise that error, print
    nothing and save nothing: the staging map on disk is the one it
    loaded. *)
Theorem add_failure_stages_nothing `{Host}
    (repo_path : string) (ignore_file : option (list string))
    (content : os_error + string) (stored : option os_error)
    (file_path : string) (st : Metadata) (e : os_error) :
  String.prefix repo_path (os_path_abspath file_path) = true →
  os_path_relpath (os_path_abspath file_path) repo_path
    ∉ DVC.get_ignored_files ignore_file →
  content = inl e ∨ ((∃ bytes, content = inr bytes) ∧ stored = Some e) →
  DVC.add repo_path ignore_file content stored file_path st
  = mkOutcome [] (Raise (OSError e)) st.
Proof.
  intros Hscope Hign Hfail. unfold DVC.add. rewrite Hscope; simpl.
  rewrite decide_False by done.
  by destruct Hfail as [->|[[bytes ->] ->]].
Qed.

Lemma add_failure_stages_nothing_witness :
  DVC.add (H:=Examples.demo_host) "/repo" None (inr "v1")
    (Some (SameFileError "/repo/.dvc/objects/sha1:v1/a.txt"
             "/repo/.dvc/objects/sha1:v1/a.txt"))
    "/repo/.dvc/objects/sha1:v1/a.txt" Samples.working
  = mkOutcome []
      (Raise (OSError (SameFileError "/repo/.dvc/objects/sha1:v1/a.txt"
                         "/repo/.dvc/objects/sha1:v1/a.txt")))
      Samples.working.
Proof.
  apply (add_failure_stages_nothing (H:=Examples.demo_host)).
  - reflexivity.
  - apply (bool_decide_unpack _). vm_compute. exact I.
  - right. split; [by eexists|reflexivity].
Defined.
